(** * Bridge relayer: contract call wrapper, static elector, process entry

    A shallow embedding of three pieces of the relayer and the properties
    its specification states about them:

    - [bridge]: the bridge contract wrapper
      (chains/evm/calls/contracts/bridge/bridge.go);
    - [elector]: the static coordinator elector (comm/elector);
    - [app]: the process entry point [Run] (app).

    Go values are modelled as the code has them: [uint8] and [[]byte] as
    [byte] and [list byte], [uint64] and [*big.Int] as [Z] (with the
    wrap-around of conversions written out), strings as [string], a
    multiple return [(v, err)] as a pair whose second component is
    [option error] ([None] is [nil]), a panic as [Panics]. *)

From Stdlib Require Import ZArith List String Ascii Strings.Byte Lia.
From stdpp Require Import base list strings gmap sorting.

Local Open Scope Z_scope.

(** ** Bytes and machine integers *)

Definition byte_to_Z (b : byte) : Z := Z.of_N (Byte.to_N b).

(** The Go conversion [byte(v)]: the low eight bits of [v]. *)
Definition byte_of_Z (z : Z) : byte :=
  default x00 (Byte.of_N (Z.to_N (z mod 256))).

(** The Go conversion [int64(v)] of a 64-bit unsigned [v]: the same bit
    pattern read in two's complement. *)
Definition int64 (v : Z) : Z := (v + 2 ^ 63) mod 2 ^ 64 - 2 ^ 63.

Definition is_uint64 (v : Z) : Prop := 0 <= v < 2 ^ 64.

(** An [error] value is represented by its message. *)
Definition error : Type := string.

(** Outcome of a Go call that may panic. *)
Inductive Go (A : Type) : Type :=
| Ret (a : A)
| Panics (msg : string).
Arguments Ret {A} a.
Arguments Panics {A} msg.

Definition go_bind {A B : Type} (m : Go A) (k : A -> Go B) : Go B :=
  match m with
  | Ret a => k a
  | Panics msg => Panics msg
  end.

(** ** go-ethereum [crypto.Keccak256]

    The hash is a library function outside the repository. It is given
    here in executable form (Keccak-f[1600], rate 136 bytes, padding
    [0x01 .. 0x80], 32 bytes of output) so that the wrappers that call it
    can be evaluated; lanes are 64-bit integers, lane [(x, y)] is stored
    at index [x + 5 * y]. *)
Module Keccak.

Definition rotl64 (x n : Z) : Z :=
  Z.land (Z.lor (Z.shiftl x n) (Z.shiftr x (64 - n))) (Z.ones 64).

Definition not64 (x : Z) : Z := Z.lxor x (Z.ones 64).

Definition RC : list Z :=
  [ 0x0000000000000001; 0x0000000000008082; 0x800000000000808A;
    0x8000000080008000; 0x000000000000808B; 0x0000000080000001;
    0x8000000080008081; 0x8000000000008009; 0x000000000000008A;
    0x0000000000000088; 0x0000000080008009; 0x000000008000000A;
    0x000000008000808B; 0x800000000000008B; 0x8000000000008089;
    0x8000000000008003; 0x8000000000008002; 0x8000000000000080;
    0x000000000000800A; 0x800000008000000A; 0x8000000080008081;
    0x8000000000008080; 0x0000000080000001; 0x8000000080008008 ].

Definition rotc : list Z :=
  [ 0; 1; 62; 28; 27;  36; 44; 6; 55; 20;  3; 10; 43; 25; 39;
    41; 45; 15; 21; 8;  18; 2; 61; 56; 14 ].

Definition lane (A : list Z) (i : nat) : Z := nth i A 0.

Definition column (A : list Z) (x : nat) : Z :=
  fold_left Z.lxor (map (fun y => lane A (x + 5 * y)%nat) (seq 0 5)) 0.

Definition theta (A : list Z) : list Z :=
  let D x := Z.lxor (column A (Nat.modulo (x + 4) 5))
                    (rotl64 (column A (Nat.modulo (x + 1) 5)) 1) in
  map (fun i => Z.lxor (lane A i) (D (Nat.modulo i 5))) (seq 0 25).

Definition rho_pi (A : list Z) : list Z :=
  map (fun i =>
         let X := Nat.modulo i 5 in
         let Y := Nat.div i 5 in
         let src := (Nat.modulo (X + 3 * Y) 5 + 5 * X)%nat in
         rotl64 (lane A src) (nth src rotc 0))
      (seq 0 25).

Definition chi (B : list Z) : list Z :=
  map (fun i =>
         let X := Nat.modulo i 5 in
         let Y := Nat.div i 5 in
         Z.lxor (lane B i)
                (Z.land (not64 (lane B (Nat.modulo (X + 1) 5 + 5 * Y)%nat))
                        (lane B (Nat.modulo (X + 2) 5 + 5 * Y)%nat)))
      (seq 0 25).

Definition iota (rc : Z) (A : list Z) : list Z :=
  match A with
  | a :: rest => Z.lxor a rc :: rest
  | [] => []
  end.

Definition round (A : list Z) (rc : Z) : list Z :=
  iota rc (chi (rho_pi (theta A))).

Definition keccak_f (A : list Z) : list Z := fold_left round RC A.

Definition rate : nat := 136.

Definition pad (len : nat) : list Z :=
  let q := (rate - Nat.modulo len rate)%nat in
  match q with
  | 1%nat => [0x81]
  | _ => 0x01 :: repeat 0 (q - 2) ++ [0x80]
  end.

Fixpoint le_lane (bs : list Z) : Z :=
  match bs with
  | [] => 0
  | b :: rest => b + 256 * le_lane rest
  end.

Fixpoint lanes_of (n : nat) (bs : list Z) : list Z :=
  match n with
  | O => []
  | S n' => le_lane (firstn 8 bs) :: lanes_of n' (skipn 8 bs)
  end.

Fixpoint xor_into (A block : list Z) : list Z :=
  match A, block with
  | a :: A', b :: block' => Z.lxor a b :: xor_into A' block'
  | _, _ => A
  end.

Fixpoint absorb (fuel : nat) (A bs : list Z) : list Z :=
  match fuel, bs with
  | _, [] => A
  | O, _ => A
  | S fuel', _ =>
      absorb fuel' (keccak_f (xor_into A (lanes_of 17 (firstn rate bs))))
             (skipn rate bs)
  end.

Fixpoint lane_bytes (n : nat) (w : Z) : list Z :=
  match n with
  | O => []
  | S n' => w mod 256 :: lane_bytes n' (w / 256)
  end.

Definition squeeze (A : list Z) : list Z :=
  flat_map (lane_bytes 8) (firstn 4 A).

Definition Keccak256 (msg : list byte) : list byte :=
  let m := map byte_to_Z msg in
  let padded := m ++ pad (length m) in
  map byte_of_Z (squeeze (absorb (length padded) (repeat 0 25) padded)).

End Keccak.

(** Lower-case hexadecimal rendering, used to read digests in examples. *)
Definition hex_digit (n : N) : ascii :=
  match n with
  | 0 => "0" | 1 => "1" | 2 => "2" | 3 => "3" | 4 => "4" | 5 => "5"
  | 6 => "6" | 7 => "7" | 8 => "8" | 9 => "9" | 10 => "a" | 11 => "b"
  | 12 => "c" | 13 => "d" | 14 => "e" | _ => "f"
  end%N%char.

Fixpoint hex (bs : list byte) : string :=
  match bs with
  | [] => EmptyString
  | b :: rest =>
      String (hex_digit (Byte.to_N b / 16))
             (String (hex_digit (Byte.to_N b mod 16)%N) (hex rest))
  end.

(** ** Go standard library: [encoding/binary], [bytes], [math/big] *)

(** [binary.BigEndian.PutUint64(b, v)]: stores [v] into [b[0..7]], most
    significant byte first; the bounds check [_ = b[7]] panics on a
    shorter slice. *)
Definition PutUint64 (b : list byte) (v : Z) : Go (list byte) :=
  if decide (length b < 8)%nat then
    Panics "index out of range"
  else
    Ret (<[7%nat := byte_of_Z v]>
        (<[6%nat := byte_of_Z (Z.shiftr v 8)]>
        (<[5%nat := byte_of_Z (Z.shiftr v 16)]>
        (<[4%nat := byte_of_Z (Z.shiftr v 24)]>
        (<[3%nat := byte_of_Z (Z.shiftr v 32)]>
        (<[2%nat := byte_of_Z (Z.shiftr v 40)]>
        (<[1%nat := byte_of_Z (Z.shiftr v 48)]>
        (<[0%nat := byte_of_Z (Z.shiftr v 56)]> b)))))))).

(** [bytes.Join(s, sep)]. *)
Fixpoint bytes_Join (s : list (list byte)) (sep : list byte) : list byte :=
  match s with
  | [] => []
  | [x] => x
  | x :: rest => x ++ sep ++ bytes_Join rest sep
  end.

(** [x.Bytes()] of a [*big.Int]: the big-endian bytes of the absolute
    value, without leading zeros. *)
Fixpoint be_min_bytes (fuel : nat) (z : Z) (acc : list byte) : list byte :=
  match fuel with
  | O => acc
  | S fuel' =>
      if decide (z = 0) then acc
      else be_min_bytes fuel' (z / 256) (byte_of_Z (z mod 256) :: acc)
  end.

Definition big_Bytes (x : Z) : list byte :=
  be_min_bytes (S (Z.to_nat (Z.log2 (Z.abs x)))) (Z.abs x) [].

(** [common.LeftPadBytes(slice, l)]. *)
Definition LeftPadBytes (slice : list byte) (l : nat) : list byte :=
  if decide (l <= length slice)%nat then slice
  else repeat x00 (l - length slice) ++ slice.

(** The value read back from a big-endian byte string. *)
Definition be_decode (bs : list byte) : Z :=
  fold_left (fun acc b => 256 * acc + byte_to_Z b) bs 0.

(** The [n]-byte big-endian encoding of [v], most significant digit
    first, written from the definition of positional notation (the
    reference against which [PutUint64] is compared). *)
Fixpoint be_encode (n : nat) (v : Z) : list byte :=
  match n with
  | O => []
  | S n' => be_encode n' (v / 256) ++ [byte_of_Z (v mod 256)]
  end.

(** ** The bridge contract wrapper (package [bridge])

    Every method of [BridgeContract] is a function of the same name. A
    method writes a debug line to the log and then calls the embedded
    contract; the debug lines have no effect on what is sent or returned
    and are left out. *)
Module bridge.

(** [transactor.TransactOptions]. The wrapper reads only [Priority];
    the options are otherwise handed to the transactor as they are. *)
Record TransactOptions : Type := { Priority : Z }.

(** Arguments and results of contract calls are Go [interface{}]
    values; the constructor records the dynamic type. *)
Inductive ABIValue : Type :=
| Uint8 (v : byte)
| Uint64 (v : Z)
| BigInt (v : Z)
| Bytes (v : list byte)
| Bytes4 (v : list byte)
| Bytes32 (v : list byte)
| Address (v : list byte)
| Bool (v : bool).

(** [proposal.Proposal]. *)
Record Proposal : Type := {
  Source : byte;
  Destination : byte;
  DepositNonce : Z;
  ResourceId : list byte;
  Data : list byte;
  HandlerAddress : list byte
}.

(** A proposal as the Go types admit it: a 64-bit nonce, a 32-byte
    resource id and a 20-byte handler address. *)
Definition wf_proposal (p : Proposal) : Prop :=
  is_uint64 (DepositNonce p) /\
  length (ResourceId p) = 32%nat /\
  length (HandlerAddress p) = 20%nat.

(** What reaches the embedded [contracts.Contract]: a transaction sent
    through [ExecuteTransaction] or a read through [CallContract]. *)
Inductive Invocation : Type :=
| Transact (method : string) (opts : TransactOptions) (args : list ABIValue)
| Query (method : string) (args : list ABIValue).

Definition method_of (i : Invocation) : string :=
  match i with
  | Transact m _ _ => m
  | Query m _ => m
  end.

Definition args_of (i : Invocation) : list ABIValue :=
  match i with
  | Transact _ _ a => a
  | Query _ a => a
  end.

(** Wrapper methods run against the log of invocations made so far and
    extend it. *)
Definition Exec (A : Type) : Type :=
  list Invocation -> Go A * list Invocation.

Definition ret {A : Type} (a : A) : Exec A := fun log => (Ret a, log).

Definition panic {A : Type} (msg : string) : Exec A :=
  fun log => (Panics msg, log).

Definition bind {A B : Type} (m : Exec A) (k : A -> Exec B) : Exec B :=
  fun log =>
    match m log with
    | (Ret a, log') => k a log'
    | (Panics msg, log') => (Panics msg, log')
    end.

Notation "'let*' x ':=' m 'in' k" := (bind m (fun x => k))
  (at level 10, x pattern, m at level 100, k at level 200).

(** The invocations a method makes when started on an empty log. *)
Definition trace {A : Type} (m : Exec A) : list Invocation := snd (m []).

Definition result {A : Type} (m : Exec A) : Go A := fst (m []).

(** [res[0]]. *)
Definition index0 (res : list ABIValue) : Exec ABIValue :=
  match res with
  | v :: _ => ret v
  | [] => panic "index out of range [0] with length 0"
  end.

(** [abi.ConvertType] to a [bool] pointer, dereferenced: a [bool] is
    handed back, any other dynamic type makes [ConvertType] panic. *)
Definition ConvertType_bool (v : ABIValue) : Exec bool :=
  match v with
  | Bool b => ret b
  | _ => panic "abi: cannot use value as type bool"
  end.

(** [abi.ConvertType] to a [common.Address] pointer, dereferenced. An
    address is handed back as it is. A byte slice converts to a pointer
    to its first 20 bytes, and the conversion panics on a shorter slice.
    A byte array is copied byte by byte into a fresh address, as far as
    both reach, the rest staying zero. On a value of another dynamic type
    the conversion does not come back: [reflect] panics on taking its
    length, and on a [big.Int] pointer the conversion recurses without
    end. *)
Definition ConvertType_Address (v : ABIValue) : Exec (list byte) :=
  match v with
  | Address a => ret a
  | Bytes bs =>
      if decide (length bs < 20)%nat then
        panic "reflect: cannot convert slice to pointer to array with length 20"
      else ret (firstn 20 bs)
  | Bytes4 bs => ret (firstn 20 (bs ++ repeat x00 20))
  | Bytes32 bs => ret (firstn 20 (bs ++ repeat x00 20))
  | _ => panic "abi: cannot use value as type common.Address"
  end.

Section BridgeContract.

(** The embedded [contracts.Contract]: what the chain answers to a
    transaction or a read, given everything invoked before. *)
Variable transact_reply :
  list Invocation -> string -> TransactOptions -> list ABIValue ->
  option (list byte) * option error.
Variable call_reply :
  list Invocation -> string -> list ABIValue ->
  list ABIValue * option error.

(** Package [deposit]: the payload encoders. *)
Variable ConstructErc20DepositData : list byte -> Z -> list byte.
Variable ConstructErc20DepositDataWithPriority :
  list byte -> Z -> Z -> list byte.
Variable ConstructErc721DepositData :
  list byte -> Z -> list byte -> list byte.
Variable ConstructErc721DepositDataWithPriority :
  list byte -> Z -> list byte -> Z -> list byte.
Variable ConstructGenericDepositData : list byte -> list byte.

Definition ExecuteTransaction (method : string) (opts : TransactOptions)
    (args : list ABIValue) : Exec (option (list byte) * option error) :=
  fun log =>
    (Ret (transact_reply log method opts args),
     log ++ [Transact method opts args]).

Definition CallContract (method : string) (args : list ABIValue)
    : Exec (list ABIValue * option error) :=
  fun log => (Ret (call_reply log method args), log ++ [Query method args]).

Definition AdminSetGenericResource (handler rID addr depositFunctionSig : list byte)
    (depositerOffset : Z) (executeFunctionSig : list byte)
    (opts : TransactOptions) : Exec (option (list byte) * option error) :=
  ExecuteTransaction "adminSetGenericResource" opts
    [Address handler; Bytes32 rID; Address addr; Bytes4 depositFunctionSig;
     BigInt depositerOffset; Bytes4 executeFunctionSig].

Definition AdminSetResource (handlerAddr rID targetContractAddr : list byte)
    (opts : TransactOptions) : Exec (option (list byte) * option error) :=
  ExecuteTransaction "adminSetResource" opts
    [Address handlerAddr; Bytes32 rID; Address targetContractAddr].

Definition SetDepositNonce (domainId : byte) (depositNonce : Z)
    (opts : TransactOptions) : Exec (option (list byte) * option error) :=
  ExecuteTransaction "adminSetDepositNonce" opts
    [Uint8 domainId; Uint64 depositNonce].

Definition SetBurnableInput (handlerAddr tokenContractAddr : list byte)
    (opts : TransactOptions) : Exec (option (list byte) * option error) :=
  ExecuteTransaction "adminSetBurnable" opts
    [Address handlerAddr; Address tokenContractAddr].

Definition deposit (resourceID : list byte) (destDomainID : byte)
    (data feeData : list byte) (opts : TransactOptions)
    : Exec (option (list byte) * option error) :=
  ExecuteTransaction "deposit" opts
    [Uint8 destDomainID; Bytes32 resourceID; Bytes data; Bytes feeData].

Definition Erc20Deposit (recipient : list byte) (amount : Z)
    (resourceID : list byte) (destDomainID : byte) (feeData : list byte)
    (opts : TransactOptions) : Exec (option (list byte) * option error) :=
  let data :=
    if decide (Priority opts = 0) then
      ConstructErc20DepositData recipient amount
    else
      ConstructErc20DepositDataWithPriority recipient amount (Priority opts) in
  let* (txHash, err) := deposit resourceID destDomainID data feeData opts in
  match err with
  | Some e => ret (None, Some e)
  | None => ret (txHash, err)
  end.

Definition Erc721Deposit (tokenId : Z) (metadata : string)
    (recipient resourceID : list byte) (destDomainID : byte)
    (feeData : list byte) (opts : TransactOptions)
    : Exec (option (list byte) * option error) :=
  let data :=
    if decide (Priority opts = 0) then
      ConstructErc721DepositData recipient tokenId
        (list_byte_of_string metadata)
    else
      ConstructErc721DepositDataWithPriority recipient tokenId
        (list_byte_of_string metadata) (Priority opts) in
  let* (txHash, err) := deposit resourceID destDomainID data feeData opts in
  match err with
  | Some e => ret (None, Some e)
  | None => ret (txHash, err)
  end.

Definition GenericDeposit (metadata resourceID : list byte)
    (destDomainID : byte) (feeData : list byte) (opts : TransactOptions)
    : Exec (option (list byte) * option error) :=
  let data := ConstructGenericDepositData metadata in
  let* (txHash, err) := deposit resourceID destDomainID data feeData opts in
  match err with
  | Some e => ret (None, Some e)
  | None => ret (txHash, err)
  end.

Definition ExecuteProposal (proposal : Proposal) (signature : list byte)
    (revertOnFail : bool) (opts : TransactOptions)
    : Exec (option (list byte) * option error) :=
  ExecuteTransaction "executeProposal" opts
    [Uint8 (Source proposal); Uint64 (DepositNonce proposal);
     Bytes (Data proposal); Bytes32 (ResourceId proposal); Bytes signature].

Definition Pause (opts : TransactOptions)
    : Exec (option (list byte) * option error) :=
  ExecuteTransaction "adminPauseTransfers" opts [].

Definition Unpause (opts : TransactOptions)
    : Exec (option (list byte) * option error) :=
  ExecuteTransaction "adminUnpauseTransfers" opts [].

Definition EndKeygen (mpcAddress : list byte) (opts : TransactOptions)
    : Exec (option (list byte) * option error) :=
  ExecuteTransaction "endKeygen" opts [Address mpcAddress].

Definition Withdraw (handlerAddress tokenAddress recipientAddress : list byte)
    (amountOrTokenId : Z) (opts : TransactOptions)
    : Exec (option (list byte) * option error) :=
  let data :=
    LeftPadBytes tokenAddress 32
    ++ LeftPadBytes recipientAddress 32
    ++ LeftPadBytes (big_Bytes amountOrTokenId) 32 in
  ExecuteTransaction "adminWithdraw" opts [Address handlerAddress; Bytes data].

Definition IsProposalExecuted (p : Proposal) : Exec (bool * option error) :=
  let* (res, err) := CallContract "isProposalExecuted"
                   [Uint8 (Source p); BigInt (int64 (DepositNonce p))] in
  match err with
  | Some e => ret (false, Some e)
  | None =>
      let* r0 := index0 res in
      let* out := ConvertType_bool r0 in
      ret (out, None)
  end.

Definition GetHandlerAddressForResourceID (resourceID : list byte)
    : Exec (list byte * option error) :=
  let* (res, err) := CallContract "_resourceIDToHandlerAddress"
                   [Bytes32 resourceID] in
  match err with
  | Some e => ret (repeat x00 20, Some e)
  | None =>
      let* r0 := index0 res in
      let* out := ConvertType_Address r0 in
      ret (out, None)
  end.

Definition AdminChangeFeeHandler (feeHandlerAddr : list byte)
    (opts : TransactOptions) : Exec (option (list byte) * option error) :=
  ExecuteTransaction "adminChangeFeeHandler" opts [Address feeHandlerAddr].

(** The methods of the wrapper that reach the contract, with their
    arguments, and the call each one stands for. *)
Inductive Method : Type :=
| MAdminSetGenericResource (handler rID addr depositFunctionSig : list byte)
    (depositerOffset : Z) (executeFunctionSig : list byte)
    (opts : TransactOptions)
| MAdminSetResource (handlerAddr rID targetContractAddr : list byte)
    (opts : TransactOptions)
| MSetDepositNonce (domainId : byte) (depositNonce : Z) (opts : TransactOptions)
| MSetBurnableInput (handlerAddr tokenContractAddr : list byte)
    (opts : TransactOptions)
| Mdeposit (resourceID : list byte) (destDomainID : byte)
    (data feeData : list byte) (opts : TransactOptions)
| MErc20Deposit (recipient : list byte) (amount : Z) (resourceID : list byte)
    (destDomainID : byte) (feeData : list byte) (opts : TransactOptions)
| MErc721Deposit (tokenId : Z) (metadata : string)
    (recipient resourceID : list byte) (destDomainID : byte)
    (feeData : list byte) (opts : TransactOptions)
| MGenericDeposit (metadata resourceID : list byte) (destDomainID : byte)
    (feeData : list byte) (opts : TransactOptions)
| MExecuteProposal (proposal : Proposal) (signature : list byte)
    (revertOnFail : bool) (opts : TransactOptions)
| MPause (opts : TransactOptions)
| MUnpause (opts : TransactOptions)
| MEndKeygen (mpcAddress : list byte) (opts : TransactOptions)
| MWithdraw (handlerAddress tokenAddress recipientAddress : list byte)
    (amountOrTokenId : Z) (opts : TransactOptions)
| MIsProposalExecuted (p : Proposal)
| MGetHandlerAddressForResourceID (resourceID : list byte)
| MAdminChangeFeeHandler (feeHandlerAddr : list byte) (opts : TransactOptions).

Definition forget {A : Type} (m : Exec A) : Exec unit :=
  let* _ := m in ret tt.

Definition call (m : Method) : Exec unit :=
  match m with
  | MAdminSetGenericResource h r a d o e opts =>
      forget (AdminSetGenericResource h r a d o e opts)
  | MAdminSetResource h r t opts => forget (AdminSetResource h r t opts)
  | MSetDepositNonce d n opts => forget (SetDepositNonce d n opts)
  | MSetBurnableInput h t opts => forget (SetBurnableInput h t opts)
  | Mdeposit r d data fee opts => forget (deposit r d data fee opts)
  | MErc20Deposit rc am r d fee opts => forget (Erc20Deposit rc am r d fee opts)
  | MErc721Deposit t md rc r d fee opts =>
      forget (Erc721Deposit t md rc r d fee opts)
  | MGenericDeposit md r d fee opts => forget (GenericDeposit md r d fee opts)
  | MExecuteProposal p sg rv opts => forget (ExecuteProposal p sg rv opts)
  | MPause opts => forget (Pause opts)
  | MUnpause opts => forget (Unpause opts)
  | MEndKeygen a opts => forget (EndKeygen a opts)
  | MWithdraw h t rc am opts => forget (Withdraw h t rc am opts)
  | MIsProposalExecuted p => forget (IsProposalExecuted p)
  | MGetHandlerAddressForResourceID r =>
      forget (GetHandlerAddressForResourceID r)
  | MAdminChangeFeeHandler f opts => forget (AdminChangeFeeHandler f opts)
  end.

End BridgeContract.

(** The entry points section 6 of the specification lists. *)
Definition listed_entry_points : list string :=
  [ "deposit"; "executeProposal"; "isProposalExecuted"; "endKeygen";
    "adminSetResource"; "adminSetGenericResource"; "adminSetBurnable";
    "adminSetDepositNonce"; "adminChangeFeeHandler"; "adminWithdraw";
    "adminPauseTransfers"; "adminUnpauseTransfers" ].

(** The entry points the wrapper names. *)
Definition invoked_entry_points : list string :=
  listed_entry_points ++ ["_resourceIDToHandlerAddress"].

(** Stand-ins for the chain and for the payload encoders, used to run
    the wrapper on concrete inputs: a chain that accepts every
    transaction and answers every read with [res], and encoders that
    lay a payload out as 32-byte padded fields. *)
Definition accepting_chain (log : list Invocation) (method : string)
    (opts : TransactOptions) (args : list ABIValue)
    : option (list byte) * option error :=
  (Some (repeat x00 32), None).

Definition answering_chain (res : list ABIValue * option error)
    (log : list Invocation) (method : string) (args : list ABIValue)
    : list ABIValue * option error :=
  res.

Definition sample_main_data (tokenStats : Z) (destRecipient : list byte)
    : list byte :=
  LeftPadBytes (big_Bytes tokenStats) 32
  ++ LeftPadBytes (big_Bytes (Z.of_nat (length destRecipient))) 32
  ++ destRecipient.

Definition sample_erc20_data (destRecipient : list byte) (amount : Z)
    : list byte :=
  sample_main_data amount destRecipient.

Definition sample_erc20_data_with_priority (destRecipient : list byte)
    (amount priority : Z) : list byte :=
  sample_main_data amount destRecipient ++ [x01; byte_of_Z priority].

Definition sample_erc721_data (destRecipient : list byte) (tokenId : Z)
    (metadata : list byte) : list byte :=
  sample_main_data tokenId destRecipient
  ++ LeftPadBytes (big_Bytes (Z.of_nat (length metadata))) 32 ++ metadata.

Definition sample_erc721_data_with_priority (destRecipient : list byte)
    (tokenId : Z) (metadata : list byte) (priority : Z) : list byte :=
  sample_erc721_data destRecipient tokenId metadata ++ [x01; byte_of_Z priority].

Definition sample_generic_data (metadata : list byte) : list byte :=
  LeftPadBytes (big_Bytes (Z.of_nat (length metadata))) 32 ++ metadata.

Definition sample_proposal (nonce : Z) : Proposal :=
  {| Source := x01; Destination := x02; DepositNonce := nonce;
     ResourceId := repeat x00 31 ++ [x01]; Data := [xab; xcd];
     HandlerAddress := repeat x00 20 |}.

(** [ProposalHash] touches neither the contract nor the encoders. *)
Definition ProposalHash (proposal : Proposal)
    : Go (list byte * option error) :=
  go_bind (PutUint64 (repeat x00 8) (DepositNonce proposal)) (fun nonceBytes =>
  let proposalBytes :=
    bytes_Join
      [ [Source proposal];
        [Destination proposal];
        nonceBytes;
        Data proposal;
        ResourceId proposal ]
      [] in
  let hash := Keccak.Keccak256 proposalBytes in
  Ret (hash, None)).

End bridge.

(** ** Peer ordering for a session (package [tss/common]) *)
Module common.

Record PeerMsg : Type := { ID : string; SessionID : string }.

(** Modelled from the spec: [SortPeersForSession] and the order it sorts
    by are declared in tss/common, outside the files at hand. The spec
    (section 4.3, static elector) has the candidates sorted by
    [H(peer_id || session_id)] with [H] Keccak256, smallest first. The
    32-byte digests are compared as big-endian integers, which is their
    byte-wise lexicographic order. Go's [sort.Sort] is not stable; what
    is proved of the sort below uses only that its result is a sorted
    permutation of its input. *)
Definition sort_key (m : PeerMsg) : Z :=
  be_decode
    (Keccak.Keccak256 (list_byte_of_string (String.append (ID m) (SessionID m)))).

Definition peer_le (a b : PeerMsg) : Prop := sort_key a <= sort_key b.

#[global] Instance peer_le_dec : RelDecision peer_le.
Proof. intros a b. unfold peer_le. apply _. Defined.

(** Modelled from the spec: [SortPeersForSession(peers, sessionID)] pairs
    every peer with the session id and sorts the pairs by [sort_key]. *)
Definition SortPeersForSession (peers : list string) (sessionID : string)
    : list PeerMsg :=
  merge_sort peer_le
    (map (fun p => {| ID := p; SessionID := sessionID |}) peers).

End common.

(** ** The static coordinator elector (package [elector]) *)
Module elector.

Record staticCoordinatorElector : Type := { sessionID : string }.

Definition NewCoordinatorElector (sessionID : string)
    : staticCoordinatorElector :=
  {| sessionID := sessionID |}.

Section Coordinator.

(** The sort the elector calls, whatever its implementation. *)
Variable SortPeersForSession : list string -> string -> list common.PeerMsg.

Definition Coordinator_with (s : staticCoordinatorElector)
    (peers : list string) : Go (string * option error) :=
  let sortedPeers := SortPeersForSession peers (sessionID s) in
  if decide (length sortedPeers = 0%nat) then
    Ret (EmptyString, None)
  else
    match SortPeersForSession peers (sessionID s) with
    | first :: _ => Ret (common.ID first, None)
    | [] => Panics "index out of range [0] with length 0"
    end.

End Coordinator.

(** [staticCoordinatorElector.Coordinator]. *)
Definition Coordinator : staticCoordinatorElector -> list string ->
    Go (string * option error) :=
  Coordinator_with common.SortPeersForSession.

(** The key a candidate is sorted by in the session [sessionID]. *)
Definition candidate_key (sessionID peer : string) : Z :=
  common.sort_key {| common.ID := peer; common.SessionID := sessionID |}.

(** No two distinct candidates have the same key in the session. *)
Definition collision_free (sessionID : string) (peers : list string) : Prop :=
  Forall (fun p =>
            Forall (fun q =>
                      candidate_key sessionID p = candidate_key sessionID q ->
                      p = q) peers) peers.

#[global] Instance collision_free_dec (sessionID : string)
    (peers : list string) : Decision (collision_free sessionID peers).
Proof. unfold collision_free. apply _. Defined.

End elector.

(** ** The process entry point (package [app]) *)
Module app.

(** A value of a chain configuration, a Go [map[string]interface{}]:
    a string, or a value of another dynamic type, kept as [fmt] prints
    it under the verb [%s]. *)
Inductive ConfigValue : Type :=
| VString (s : string)
| VOther (printed : string).

Record MpcConfig : Type := {
  TopologyConfiguration : string;
  KeystorePath : string;
  KeysharePath : string;
  Port : Z;
  Threshold : Z
}.

Record Config : Type := {
  RelayerMpcConfig : MpcConfig;
  ChainConfigs : list (gmap string ConfigValue)
}.

(** [peer.AddrInfo]. *)
Record AddrInfo : Type := { ID : string; Addrs : list string }.

Record NetworkTopology : Type := { Peers : list AddrInfo }.

Record EVMConfig : Type := {
  Bridge : string;
  Erc20Handler : string;
  Erc721Handler : string;
  GenericHandler : string
}.

(** The chain [evm.NewEVMChain] hands back. The constructors between
    [NewEVMClient] and [NewEVMChain] return no error and only wire the
    listener and the executor of the chain together; the chain is
    identified by the configuration it was built from. *)
Record RelayedChain : Type := { chain_config : EVMConfig }.

(** What lies outside the process: the flags, the file system, the
    network. A call that can fail answers a value ([inl]) or an error
    ([inr]); a call whose value is not inspected answers [None] or the
    error. *)
Record Env : Type := {
  ConfigFlag : string;
  BlockstoreFlag : string;
  GetConfig : string -> Config + error;
  NewNetworkTopologyProvider : string -> option error;
  GetNetworkTopology : NetworkTopology + error;
  NewLvlDB : string -> option error;
  ReadFile : string -> list byte + error;
  UnmarshalPrivateKey : list byte -> option error;
  NewHost : list AddrInfo -> Z -> option error;
  NewEVMConfig : gmap string ConfigValue -> EVMConfig + error;
  NewEVMClient : EVMConfig -> option error
}.

(** [v, err := f(); if err != nil { panic(err) }]. *)
Definition must {A : Type} (r : A + error) : Go A :=
  match r with
  | inl a => Ret a
  | inr e => Panics e
  end.

Definition must_ok (r : option error) : Go unit :=
  match r with
  | None => Ret tt
  | Some e => Panics e
  end.

(** Signal numbers of [syscall] on Linux. *)
Definition SIGHUP : Z := 1.
Definition SIGINT : Z := 2.
Definition SIGQUIT : Z := 3.
Definition SIGTERM : Z := 15.

(** [fmt]'s rendering of [chainConfig["type"]] under [%s]; a missing key
    reads as the nil interface. *)
Definition fmt_s (v : option ConfigValue) : string :=
  match v with
  | Some (VString s) => s
  | Some (VOther printed) => printed
  | None => "%!s(<nil>)"
  end.

(** [fmt.Errorf("type '%s' not recognized", v)]. *)
Definition Errorf_not_recognized (v : option ConfigValue) : error :=
  String.append "type '" (String.append (fmt_s v) "' not recognized").

(** [case "evm"]: the interface value holds the string ["evm"]. *)
Definition is_evm (v : option ConfigValue) : bool :=
  match v with
  | Some (VString s) => bool_decide (s = "evm")
  | _ => false
  end.

(** The loop over [configuration.ChainConfigs]. *)
Fixpoint build_chains (env : Env) (configs : list (gmap string ConfigValue))
    (chains : list RelayedChain) : Go (list RelayedChain) :=
  match configs with
  | [] => Ret chains
  | chainConfig :: rest =>
      if is_evm (chainConfig !! "type") then
        go_bind (must (NewEVMConfig env chainConfig)) (fun config =>
        go_bind (must_ok (NewEVMClient env config)) (fun _ =>
        let chain := {| chain_config := config |} in
        build_chains env rest (chains ++ [chain])))
      else
        Panics (Errorf_not_recognized (chainConfig !! "type"))
  end.

(** [Run] up to the loop over the chain configurations: the
    configuration is loaded, then the topology, the block store, the key
    and the p2p host are set up. *)
Definition prelude (env : Env) : Go Config :=
  go_bind (must (GetConfig env (ConfigFlag env))) (fun configuration =>
  let mpc := RelayerMpcConfig configuration in
  go_bind (must_ok (NewNetworkTopologyProvider env (TopologyConfiguration mpc)))
    (fun _ =>
  go_bind (must (GetNetworkTopology env)) (fun networkTopology =>
  let allowedPeers := map ID (Peers networkTopology) in
  go_bind (must_ok (NewLvlDB env (BlockstoreFlag env))) (fun _ =>
  go_bind (must (ReadFile env (KeystorePath mpc))) (fun privBytes =>
  go_bind (must_ok (UnmarshalPrivateKey env privBytes)) (fun _ =>
  go_bind (must_ok (NewHost env (Peers networkTopology) (Port mpc))) (fun _ =>
  Ret configuration))))))).

(** Everything [Run] does before the relayer is started. *)
Definition startup (env : Env) : Go (list RelayedChain) :=
  go_bind (prelude env) (fun configuration =>
  build_chains env (ChainConfigs configuration) []).

(** What the process does to its surroundings, in order. *)
Inductive Effect : Type :=
| StartRelayer (chains : list RelayedChain)
| Notify (signals : list Z)
| Cancel.

(** What may reach [Run] while it waits in its [select]: a signal that
    the Go runtime hands to [os/signal], or a value the relayer sends on
    the error channel. The signals meant are those that are registered
    with [signal.Notify] and those on which the runtime takes no action
    of its own (SIGUSR1, SIGUSR2 and the like). A signal that ends or
    stops the process by itself (SIGKILL, SIGSTOP, an unregistered
    SIGABRT) never reaches [Run] and is not an event of this model. *)
Inductive Event : Type :=
| Signal (sig : Z)
| RelayerError (err : option error).

Inductive Outcome : Type :=
| Returned (err : option error)
| Panicked (value : error)
| Blocked.

(** [select] over [errChn] and [sysErr]. A signal reaches [sysErr] only
    if [signal.Notify] registered it; a signal the runtime takes no
    action on leaves [Run] waiting. *)
Fixpoint select (subscribed : list Z) (events : list Event) : Outcome :=
  match events with
  | [] => Blocked
  | RelayerError err :: _ => Returned err
  | Signal sig :: rest =>
      if decide (sig ∈ subscribed) then Returned None
      else select subscribed rest
  end.

Definition subscribed_signals : list Z := [SIGTERM; SIGINT; SIGHUP; SIGQUIT].

Definition Run (env : Env) (events : list Event) : Outcome * list Effect :=
  match startup env with
  | Panics value => (Panicked value, [])
  | Ret chains =>
      let before := [StartRelayer chains; Notify subscribed_signals] in
      match select subscribed_signals events with
      | Blocked => (Blocked, before)
      | out => (out, before ++ [Cancel])
      end
  end.

(** Surroundings in which every call succeeds, for running [Run] on a
    given list of chain configurations. *)
Definition sample_config (chains : list (gmap string ConfigValue)) : Config :=
  {| RelayerMpcConfig :=
       {| TopologyConfiguration := "topology.json"; KeystorePath := "key.pem";
          KeysharePath := "share.json"; Port := 9000; Threshold := 2 |};
     ChainConfigs := chains |}.

Definition sample_env (chains : list (gmap string ConfigValue)) : Env :=
  {| ConfigFlag := "config.json";
     BlockstoreFlag := "blockstore";
     GetConfig := fun _ => inl (sample_config chains);
     NewNetworkTopologyProvider := fun _ => None;
     GetNetworkTopology := inl {| Peers := [] |};
     NewLvlDB := fun _ => None;
     ReadFile := fun _ => inl [];
     UnmarshalPrivateKey := fun _ => None;
     NewHost := fun _ _ => None;
     NewEVMConfig := fun _ =>
       inl {| Bridge := "0x01"; Erc20Handler := "0x02";
              Erc721Handler := "0x03"; GenericHandler := "0x04" |};
     NewEVMClient := fun _ => None |}.


Definition evm_chain : gmap string ConfigValue :=
  {[ "type" := VString "evm"; "name" := VString "goerli" ]}.

Definition substrate_chain : gmap string ConfigValue :=
  {[ "type" := VString "substrate"; "name" := VString "rococo" ]}.

End app.

(** ** Notions used to state further properties *)

(** The bytes [ProposalHash] hashes: the local [proposalBytes] of the
    method, built as the method builds it. *)
Definition proposalBytes (proposal : bridge.Proposal) : Go (list byte) :=
  go_bind (PutUint64 (repeat x00 8) (bridge.DepositNonce proposal))
    (fun nonceBytes =>
  Ret (bytes_Join
         [ [bridge.Source proposal];
           [bridge.Destination proposal];
           nonceBytes;
           bridge.Data proposal;
           bridge.ResourceId proposal ]
         [])).

(** The proposal [p] with another handler address. *)
Definition with_handler (p : bridge.Proposal) (addr : list byte)
    : bridge.Proposal :=
  {| bridge.Source := bridge.Source p;
     bridge.Destination := bridge.Destination p;
     bridge.DepositNonce := bridge.DepositNonce p;
     bridge.ResourceId := bridge.ResourceId p;
     bridge.Data := bridge.Data p;
     bridge.HandlerAddress := addr |}.

(** The chain [ch] is what one round of the loop of [Run] builds from
    the entry [c]: the entry is of type ["evm"], its configuration parses
    to the configuration of [ch], and the client connects. *)
Definition chain_built (env : app.Env) (c : gmap string app.ConfigValue)
    (ch : app.RelayedChain) : Prop :=
  c !! "type" = Some (app.VString "evm")
  /\ app.NewEVMConfig env c = inl (app.chain_config ch)
  /\ app.NewEVMClient env (app.chain_config ch) = None.

(** A transactor that reports a failure although it has a hash. *)
Definition failing_chain (log : list bridge.Invocation) (method : string)
    (opts : bridge.TransactOptions) (args : list bridge.ABIValue)
    : option (list byte) * option error :=
  (Some (repeat x00 32), Some "execution reverted"%string).

(** * Properties *)

(** ** Bytes *)

Lemma byte_to_Z_range (b : byte) : 0 <= byte_to_Z b < 256.
Proof.
  unfold byte_to_Z. pose proof (Byte.to_N_bounded b). lia.
Qed.

Lemma byte_to_of_Z (z : Z) : byte_to_Z (byte_of_Z z) = z mod 256.
Proof.
  unfold byte_to_Z, byte_of_Z.
  assert (Hr : 0 <= z mod 256 < 256) by (apply Z.mod_pos_bound; lia).
  destruct (Byte.of_N (Z.to_N (z mod 256))) as [b|] eqn:E.
  - apply Byte.to_of_N in E. simpl. rewrite E. lia.
  - apply Byte.of_N_None_iff in E. lia.
Qed.

Lemma byte_of_to_Z (b : byte) : byte_of_Z (byte_to_Z b) = b.
Proof.
  unfold byte_of_Z, byte_to_Z.
  pose proof (Byte.to_N_bounded b).
  rewrite Z.mod_small by lia.
  rewrite N2Z.id, Byte.of_to_N. reflexivity.
Qed.

Lemma byte_of_Z_mod (z : Z) : byte_of_Z (z mod 256) = byte_of_Z z.
Proof.
  unfold byte_of_Z. rewrite Z.mod_mod by lia. reflexivity.
Qed.

(** ** Big-endian encoding *)

Lemma be_encode_length (n : nat) (v : Z) : length (be_encode n v) = n.
Proof.
  revert v. induction n as [|n IH]; intros v; simpl.
  - reflexivity.
  - rewrite length_app, IH. simpl. lia.
Qed.

Lemma be_decode_snoc (bs : list byte) (b : byte) :
  be_decode (bs ++ [b]) = 256 * be_decode bs + byte_to_Z b.
Proof.
  unfold be_decode. rewrite fold_left_app. reflexivity.
Qed.

Lemma be_decode_encode (n : nat) (v : Z) :
  be_decode (be_encode n v) = v mod 256 ^ Z.of_nat n.
Proof.
  revert v. induction n as [|n IH]; intros v.
  - simpl. rewrite Z.mod_1_r. reflexivity.
  - cbn [be_encode]. rewrite be_decode_snoc, IH, byte_to_of_Z.
    rewrite Z.mod_mod by lia.
    rewrite Nat2Z.inj_succ, Z.pow_succ_r by lia.
    rewrite Z.rem_mul_r; [lia | lia | apply Z.pow_pos_nonneg; lia].
Qed.

Lemma be_decode_encode_uint64 (v : Z) :
  is_uint64 v -> be_decode (be_encode 8 v) = v.
Proof.
  intros Hv. rewrite be_decode_encode.
  apply Z.mod_small. unfold is_uint64 in Hv.
  change (256 ^ Z.of_nat 8) with (2 ^ 64). lia.
Qed.

Lemma shiftr_div_256 (v : Z) (k : nat) :
  Z.shiftr v (8 * Z.of_nat k) = Nat.iter k (fun x => x / 256) v.
Proof.
  induction k as [|k IH].
  - simpl. apply Z.shiftr_0_r.
  - rewrite Nat2Z.inj_succ.
    replace (8 * Z.succ (Z.of_nat k)) with (8 * Z.of_nat k + 8) by lia.
    rewrite <- Z.shiftr_shiftr by lia. rewrite IH. simpl.
    rewrite Z.shiftr_div_pow2 by lia. reflexivity.
Qed.

(** [PutUint64] on a fresh 8-byte slice writes the positional encoding. *)
Lemma PutUint64_be_encode (v : Z) :
  PutUint64 (repeat x00 8) v = Ret (be_encode 8 v).
Proof.
  unfold PutUint64. simpl.
  change 56 with (8 * Z.of_nat 7). change 48 with (8 * Z.of_nat 6).
  change 40 with (8 * Z.of_nat 5). change 32 with (8 * Z.of_nat 4).
  change 24 with (8 * Z.of_nat 3). change 16 with (8 * Z.of_nat 2).
  change (Z.shiftr v 8) with (Z.shiftr v (8 * Z.of_nat 1)).
  rewrite !shiftr_div_256. simpl.
  rewrite !byte_of_Z_mod. reflexivity.
Qed.

(** ** The Keccak model on the standard test vectors *)

Example Keccak256_empty :
  hex (Keccak.Keccak256 []) =
  "c5d2460186f7233c927e7db2dcc703c0e500b653ca82273b7bfad8045d85a470"%string.
Proof. vm_compute. reflexivity. Qed.

Example Keccak256_abc :
  hex (Keccak.Keccak256 (list_byte_of_string "abc")) =
  "4e03657aea45a94fc7d47ba826c8d667c0d1e6e33a64a036ec44f58fa12d6c45"%string.
Proof. vm_compute. reflexivity. Qed.

Example Keccak256_two_blocks :
  hex (Keccak.Keccak256 (repeat x61 200)) =
  "96ea54061def936c4be90b518992fdc6f12f535068a256229aca54267b4d084d"%string.
Proof. vm_compute. reflexivity. Qed.

(** ** The Go helpers on small inputs *)

Example int64_examples :
  int64 42 = 42 /\ int64 (2 ^ 63 - 1) = 2 ^ 63 - 1
  /\ int64 (2 ^ 63) = - 2 ^ 63 /\ int64 (2 ^ 64 - 1) = -1.
Proof. repeat split; reflexivity. Qed.

Example big_Bytes_examples :
  big_Bytes 0 = [] /\ big_Bytes 255 = [xff] /\ big_Bytes 256 = [x01; x00]
  /\ big_Bytes (-1000000) = [x0f; x42; x40].
Proof. repeat split; reflexivity. Qed.

Example LeftPadBytes_examples :
  LeftPadBytes [x01; x02] 4 = [x00; x00; x01; x02]
  /\ LeftPadBytes [x01; x02; x03] 2 = [x01; x02; x03].
Proof. split; reflexivity. Qed.

Example bytes_Join_example :
  bytes_Join [[x01]; []; [x02; x03]] [] = [x01; x02; x03]
  /\ bytes_Join [[x01]; [x02]] [xff] = [x01; xff; x02].
Proof. split; reflexivity. Qed.

Example PutUint64_examples :
  PutUint64 (repeat x00 8) 0x0102030405060708
  = Ret [x01; x02; x03; x04; x05; x06; x07; x08]
  /\ PutUint64 (repeat x00 7) 1 = Panics "index out of range".
Proof. split; reflexivity. Qed.

(** ** ProposalHash *)

(** C1. For every proposal, [ProposalHash] returns, with a nil error and
    without panicking, the Keccak256 digest of the source domain byte,
    the destination domain byte, the 8-byte big-endian encoding of the
    deposit nonce, the data and the resource id, concatenated in that
    order. The encoding has eight bytes and reads back as the nonce
    (modulo 2^64, the range of the field). *)
Theorem ProposalHash_canonical (p : bridge.Proposal) :
  bridge.ProposalHash p =
    Ret (Keccak.Keccak256
           ([bridge.Source p] ++ [bridge.Destination p]
            ++ be_encode 8 (bridge.DepositNonce p)
            ++ bridge.Data p ++ bridge.ResourceId p),
         None)
  /\ length (be_encode 8 (bridge.DepositNonce p)) = 8%nat
  /\ be_decode (be_encode 8 (bridge.DepositNonce p))
     = bridge.DepositNonce p mod 2 ^ 64.
Proof.
  split; [|split].
  - unfold bridge.ProposalHash. rewrite PutUint64_be_encode.
    cbn [go_bind bytes_Join]. rewrite !app_nil_l. reflexivity.
  - apply be_encode_length.
  - rewrite be_decode_encode. reflexivity.
Qed.

Example ProposalHash_example :
  let p := {| bridge.Source := x01; bridge.Destination := x02;
              bridge.DepositNonce := 42;
              bridge.ResourceId := repeat x00 31 ++ [x01];
              bridge.Data := [xab; xcd];
              bridge.HandlerAddress := repeat x00 20 |} in
  be_encode 8 (bridge.DepositNonce p) = [x00; x00; x00; x00; x00; x00; x00; x2a]
  /\ option_map hex (match bridge.ProposalHash p with
                     | Ret (h, None) => Some h
                     | _ => None
                     end)
     = Some (hex (Keccak.Keccak256
                    ([x01; x02; x00; x00; x00; x00; x00; x00; x00; x2a; xab; xcd]
                     ++ repeat x00 31 ++ [x01]))).
Proof. vm_compute. split; reflexivity. Qed.

(** ** The bridge wrapper *)

Section BridgeProperties.

Variable transact_reply :
  list bridge.Invocation -> string -> bridge.TransactOptions ->
  list bridge.ABIValue -> option (list byte) * option error.
Variable call_reply :
  list bridge.Invocation -> string -> list bridge.ABIValue ->
  list bridge.ABIValue * option error.
Variable ConstructErc20DepositData : list byte -> Z -> list byte.
Variable ConstructErc20DepositDataWithPriority :
  list byte -> Z -> Z -> list byte.
Variable ConstructErc721DepositData :
  list byte -> Z -> list byte -> list byte.
Variable ConstructErc721DepositDataWithPriority :
  list byte -> Z -> list byte -> Z -> list byte.
Variable ConstructGenericDepositData : list byte -> list byte.

Local Abbreviation Erc20Deposit :=
  (bridge.Erc20Deposit transact_reply ConstructErc20DepositData
     ConstructErc20DepositDataWithPriority).
Local Abbreviation Erc721Deposit :=
  (bridge.Erc721Deposit transact_reply ConstructErc721DepositData
     ConstructErc721DepositDataWithPriority).
Local Abbreviation GenericDeposit :=
  (bridge.GenericDeposit transact_reply ConstructGenericDepositData).
Local Abbreviation IsProposalExecuted := (bridge.IsProposalExecuted call_reply).
Local Abbreviation call :=
  (bridge.call transact_reply call_reply ConstructErc20DepositData
     ConstructErc20DepositDataWithPriority ConstructErc721DepositData
     ConstructErc721DepositDataWithPriority ConstructGenericDepositData).

(** The three deposit methods share their tail: one [deposit]
    transaction carrying the data built before it. *)
Lemma deposit_tail_log (rid : list byte) (dest : byte) (data fee : list byte)
    (opts : bridge.TransactOptions) (log : list bridge.Invocation) :
  snd (bridge.bind (bridge.deposit transact_reply rid dest data fee opts)
         (fun x => match x with
                   | (txHash, err) =>
                       match err with
                       | Some e => bridge.ret (None, Some e)
                       | None => bridge.ret (txHash, err)
                       end
                   end) log)
  = log ++ [bridge.Transact "deposit" opts
              [bridge.Uint8 dest; bridge.Bytes32 rid; bridge.Bytes data;
               bridge.Bytes fee]].
Proof.
  unfold bridge.bind, bridge.deposit, bridge.ExecuteTransaction.
  destruct (transact_reply log "deposit" opts _) as [txHash [e|]];
    reflexivity.
Qed.

(** C5. In an ERC-20 or ERC-721 deposit the payload of the [deposit]
    transaction is built by the plain encoder when the priority of the
    transaction options is 0, and by the with-priority encoder, given
    that same priority, when it is not. *)
Theorem deposit_priority_encoding
    (recipient : list byte) (amount tokenId : Z) (metadata : string)
    (rid : list byte) (dest : byte) (fee : list byte)
    (opts : bridge.TransactOptions) (log : list bridge.Invocation) :
  (bridge.Priority opts = 0 ->
     snd (Erc20Deposit recipient amount rid dest fee opts log)
     = log ++ [bridge.Transact "deposit" opts
                 [bridge.Uint8 dest; bridge.Bytes32 rid;
                  bridge.Bytes (ConstructErc20DepositData recipient amount);
                  bridge.Bytes fee]]
     /\ snd (Erc721Deposit tokenId metadata recipient rid dest fee opts log)
        = log ++ [bridge.Transact "deposit" opts
                    [bridge.Uint8 dest; bridge.Bytes32 rid;
                     bridge.Bytes (ConstructErc721DepositData recipient tokenId
                                     (list_byte_of_string metadata));
                     bridge.Bytes fee]])
  /\ (bridge.Priority opts <> 0 ->
        snd (Erc20Deposit recipient amount rid dest fee opts log)
        = log ++ [bridge.Transact "deposit" opts
                    [bridge.Uint8 dest; bridge.Bytes32 rid;
                     bridge.Bytes (ConstructErc20DepositDataWithPriority
                                     recipient amount (bridge.Priority opts));
                     bridge.Bytes fee]]
        /\ snd (Erc721Deposit tokenId metadata recipient rid dest fee opts log)
           = log ++ [bridge.Transact "deposit" opts
                       [bridge.Uint8 dest; bridge.Bytes32 rid;
                        bridge.Bytes (ConstructErc721DepositDataWithPriority
                                        recipient tokenId
                                        (list_byte_of_string metadata)
                                        (bridge.Priority opts));
                        bridge.Bytes fee]]).
Proof.
  unfold bridge.Erc20Deposit, bridge.Erc721Deposit.
  split; intros Hp; (destruct (decide (bridge.Priority opts = 0)) as [H0|H0];
    [|]; try contradiction);
    split; apply deposit_tail_log.
Qed.

(** C9. A generic deposit submits [ConstructGenericDepositData metadata]
    whatever the priority: two calls that differ only in the priority of
    their options pass the same arguments to [deposit]. *)
Theorem GenericDeposit_ignores_priority
    (metadata rid : list byte) (dest : byte) (fee : list byte)
    (priority1 priority2 : Z) (log : list bridge.Invocation) :
  let opts1 := {| bridge.Priority := priority1 |} in
  let opts2 := {| bridge.Priority := priority2 |} in
  snd (GenericDeposit metadata rid dest fee opts1 log)
  = log ++ [bridge.Transact "deposit" opts1
              [bridge.Uint8 dest; bridge.Bytes32 rid;
               bridge.Bytes (ConstructGenericDepositData metadata);
               bridge.Bytes fee]]
  /\ map bridge.args_of
       (bridge.trace (GenericDeposit metadata rid dest fee opts1))
     = map bridge.args_of
         (bridge.trace (GenericDeposit metadata rid dest fee opts2)).
Proof.
  intros opts1 opts2. unfold bridge.GenericDeposit, bridge.trace.
  rewrite !deposit_tail_log. split; reflexivity.
Qed.

(** ** IsProposalExecuted *)

Lemma int64_small (v : Z) : 0 <= v < 2 ^ 63 -> int64 v = v.
Proof.
  intros Hv. unfold int64. rewrite Z.mod_small by lia. lia.
Qed.

Lemma int64_large (v : Z) : 2 ^ 63 <= v < 2 ^ 64 -> int64 v = v - 2 ^ 64.
Proof.
  intros Hv. unfold int64.
  replace (v + 2 ^ 63) with (v - 2 ^ 63 + 1 * 2 ^ 64) by lia.
  rewrite Z.mod_add by lia. rewrite Z.mod_small by lia. lia.
Qed.

(** The one read [IsProposalExecuted] makes, whatever the chain answers. *)
Lemma IsProposalExecuted_log (p : bridge.Proposal)
    (log : list bridge.Invocation) :
  snd (IsProposalExecuted p log)
  = log ++ [bridge.Query "isProposalExecuted"
              [bridge.Uint8 (bridge.Source p);
               bridge.BigInt (int64 (bridge.DepositNonce p))]].
Proof.
  unfold bridge.IsProposalExecuted, bridge.bind, bridge.CallContract.
  destruct (call_reply log "isProposalExecuted" _) as [res [e|]].
  - reflexivity.
  - destruct res as [|[] res]; reflexivity.
Qed.

(** What [IsProposalExecuted] hands back: the error of a failed read
    together with [false], the boolean of a successful one. *)
Lemma IsProposalExecuted_result (p : bridge.Proposal)
    (log : list bridge.Invocation) :
  let reply :=
    call_reply log "isProposalExecuted"
      [bridge.Uint8 (bridge.Source p);
       bridge.BigInt (int64 (bridge.DepositNonce p))] in
  (forall res e, reply = (res, Some e) ->
     fst (IsProposalExecuted p log) = Ret (false, Some e))
  /\ (forall b res, reply = (bridge.Bool b :: res, None) ->
        fst (IsProposalExecuted p log) = Ret (b, None)).
Proof.
  intros reply. subst reply.
  unfold bridge.IsProposalExecuted, bridge.bind, bridge.CallContract.
  split; intros ? ? E; rewrite E; reflexivity.
Qed.

(** On the nonces below 2^63 the read carries the source domain and the
    deposit nonce themselves. *)
Lemma IsProposalExecuted_small_nonce (p : bridge.Proposal)
    (log : list bridge.Invocation) :
  0 <= bridge.DepositNonce p < 2 ^ 63 ->
  snd (IsProposalExecuted p log)
  = log ++ [bridge.Query "isProposalExecuted"
              [bridge.Uint8 (bridge.Source p);
               bridge.BigInt (bridge.DepositNonce p)]].
Proof.
  intros Hn. rewrite IsProposalExecuted_log, int64_small by exact Hn.
  reflexivity.
Qed.

(** C10. The deposit nonce goes through [int64] before it becomes the
    argument of the read: for a nonce of at least 2^63 the argument is
    the negative number [nonce - 2^64], not the nonce. *)
Theorem IsProposalExecuted_nonce_wraps (p : bridge.Proposal)
    (log : list bridge.Invocation) :
  2 ^ 63 <= bridge.DepositNonce p < 2 ^ 64 ->
  snd (IsProposalExecuted p log)
  = log ++ [bridge.Query "isProposalExecuted"
              [bridge.Uint8 (bridge.Source p);
               bridge.BigInt (bridge.DepositNonce p - 2 ^ 64)]]
  /\ bridge.DepositNonce p - 2 ^ 64 < 0
  /\ bridge.DepositNonce p - 2 ^ 64 <> bridge.DepositNonce p.
Proof.
  intros Hn. rewrite IsProposalExecuted_log, int64_large by exact Hn.
  repeat split; lia.
Qed.

(** ** The entry points the wrapper names *)

(** Runs a wrapper method symbolically: unfolds it down to the two
    primitives of the contract and splits on what the chain answers. *)
Ltac run_wrapper transact_reply call_reply :=
  unfold bridge.trace, bridge.call, bridge.forget, bridge.bind,
    bridge.AdminSetGenericResource, bridge.AdminSetResource,
    bridge.SetDepositNonce, bridge.SetBurnableInput, bridge.Erc20Deposit,
    bridge.Erc721Deposit, bridge.GenericDeposit, bridge.deposit,
    bridge.ExecuteProposal, bridge.Pause, bridge.Unpause, bridge.EndKeygen,
    bridge.Withdraw, bridge.IsProposalExecuted,
    bridge.GetHandlerAddressForResourceID, bridge.AdminChangeFeeHandler,
    bridge.bind, bridge.ExecuteTransaction, bridge.CallContract;
  cbn [fst snd];
  repeat match goal with
         | |- context [transact_reply ?l ?m ?o ?a] =>
             destruct (transact_reply l m o a) as [? [?|]]
         | |- context [call_reply ?l ?m ?a] =>
             destruct (call_reply l m a) as [[|[] ?] [?|]]
         end;
  cbn;
  repeat match goal with
         | |- context [decide ?P] => destruct (decide P)
         end;
  cbn.

(** Every method of the wrapper makes exactly one invocation, and names
    one of the thirteen entry points. *)
Lemma call_one_invocation (m : bridge.Method) (log : list bridge.Invocation) :
  exists i, snd (call m log) = log ++ [i]
            /\ bridge.method_of i ∈ bridge.invoked_entry_points.
Proof.
  destruct m; run_wrapper transact_reply call_reply;
    eexists; (split; [reflexivity|]);
    cbn [bridge.method_of];
    unfold bridge.invoked_entry_points, bridge.listed_entry_points;
    cbn [app];
    repeat first [apply list_elem_of_here | apply list_elem_of_further].
Qed.

Lemma resourceIDToHandlerAddress_not_listed :
  "_resourceIDToHandlerAddress" ∉ bridge.listed_entry_points.
Proof.
  unfold bridge.listed_entry_points. intros H.
  repeat (apply elem_of_cons in H as [H|H]; [discriminate H|]).
  by apply elem_of_nil in H.
Qed.

(** C2, as the code has it. The wrapper names thirteen contract entry
    points: the twelve of the specification and
    [_resourceIDToHandlerAddress], which [GetHandlerAddressForResourceID]
    reads through [CallContract]. Every method of the wrapper makes one
    invocation whose name is among the thirteen, and each of the
    thirteen is named by some method. *)
Theorem wrapper_entry_points :
  (forall (m : bridge.Method) (log : list bridge.Invocation),
     exists i, snd (call m log) = log ++ [i]
               /\ bridge.method_of i ∈ bridge.invoked_entry_points)
  /\ Forall (fun name =>
               exists m : bridge.Method,
                 map bridge.method_of (bridge.trace (call m)) = [name])
            bridge.invoked_entry_points
  /\ bridge.invoked_entry_points
     = bridge.listed_entry_points ++ ["_resourceIDToHandlerAddress"]
  /\ "_resourceIDToHandlerAddress" ∉ bridge.listed_entry_points.
Proof.
  pose (o := {| bridge.Priority := 0 |}).
  pose (p := {| bridge.Source := x00; bridge.Destination := x00;
                bridge.DepositNonce := 0; bridge.ResourceId := [];
                bridge.Data := []; bridge.HandlerAddress := [] |}).
  split; [exact call_one_invocation|].
  split; [|split; [reflexivity|exact resourceIDToHandlerAddress_not_listed]].
  unfold bridge.invoked_entry_points, bridge.listed_entry_points.
  cbn [app]. repeat apply Forall_cons_2; [..|apply Forall_nil_2].
  - exists (bridge.Mdeposit [] x00 [] [] o).
    run_wrapper transact_reply call_reply; reflexivity.
  - exists (bridge.MExecuteProposal p [] false o).
    run_wrapper transact_reply call_reply; reflexivity.
  - exists (bridge.MIsProposalExecuted p).
    run_wrapper transact_reply call_reply; reflexivity.
  - exists (bridge.MEndKeygen [] o).
    run_wrapper transact_reply call_reply; reflexivity.
  - exists (bridge.MAdminSetResource [] [] [] o).
    run_wrapper transact_reply call_reply; reflexivity.
  - exists (bridge.MAdminSetGenericResource [] [] [] [] 0 [] o).
    run_wrapper transact_reply call_reply; reflexivity.
  - exists (bridge.MSetBurnableInput [] [] o).
    run_wrapper transact_reply call_reply; reflexivity.
  - exists (bridge.MSetDepositNonce x00 0 o).
    run_wrapper transact_reply call_reply; reflexivity.
  - exists (bridge.MAdminChangeFeeHandler [] o).
    run_wrapper transact_reply call_reply; reflexivity.
  - exists (bridge.MWithdraw [] [] [] 0 o).
    run_wrapper transact_reply call_reply; reflexivity.
  - exists (bridge.MPause o).
    run_wrapper transact_reply call_reply; reflexivity.
  - exists (bridge.MUnpause o).
    run_wrapper transact_reply call_reply; reflexivity.
  - exists (bridge.MGetHandlerAddressForResourceID []).
    run_wrapper transact_reply call_reply; reflexivity.
Qed.

End BridgeProperties.

(** C2, as stated, fails: it is not the case that every name the wrapper
    passes to [ExecuteTransaction] or [CallContract] is one of the twelve
    listed entry points. [GetHandlerAddressForResourceID] passes
    [_resourceIDToHandlerAddress]. *)
Lemma listed_entry_points_not_exhaustive :
  ~ (forall transact_reply call_reply erc20 erc20p erc721 erc721p generic
            (m : bridge.Method),
       Forall (fun i => bridge.method_of i ∈ bridge.listed_entry_points)
              (bridge.trace
                 (bridge.call transact_reply call_reply erc20 erc20p erc721
                    erc721p generic m))).
Proof.
  intros H.
  specialize (H bridge.accepting_chain
                (bridge.answering_chain ([bridge.Address (repeat x00 20)], None))
                bridge.sample_erc20_data bridge.sample_erc20_data_with_priority
                bridge.sample_erc721_data
                bridge.sample_erc721_data_with_priority
                bridge.sample_generic_data
                (bridge.MGetHandlerAddressForResourceID (repeat x00 32))).
  cbv [bridge.trace bridge.call bridge.forget bridge.bind
       bridge.GetHandlerAddressForResourceID bridge.CallContract
       bridge.answering_chain bridge.index0 bridge.ConvertType_Address
       bridge.ret snd app] in H.
  apply Forall_cons_1 in H as [H _]. cbn [bridge.method_of] in H.
  exact (resourceIDToHandlerAddress_not_listed H).
Qed.

(** C5 at a concrete deposit: priority 0 takes the plain encoder,
    priority 3 the with-priority one. *)
Lemma deposit_priority_encoding_witness :
  let plain := {| bridge.Priority := 0 |} in
  let urgent := {| bridge.Priority := 3 |} in
  (bridge.Priority plain = 0
   /\ snd (bridge.Erc20Deposit bridge.accepting_chain bridge.sample_erc20_data
             bridge.sample_erc20_data_with_priority
             [xaa] 5 (repeat x00 32) x02 [] plain [])
      = [bridge.Transact "deposit" plain
           [bridge.Uint8 x02; bridge.Bytes32 (repeat x00 32);
            bridge.Bytes (bridge.sample_erc20_data [xaa] 5);
            bridge.Bytes []]])
  /\ (bridge.Priority urgent <> 0
      /\ snd (bridge.Erc721Deposit bridge.accepting_chain
                bridge.sample_erc721_data
                bridge.sample_erc721_data_with_priority
                7 "meta" [xaa] (repeat x00 32) x02 [] urgent [])
         = [bridge.Transact "deposit" urgent
              [bridge.Uint8 x02; bridge.Bytes32 (repeat x00 32);
               bridge.Bytes (bridge.sample_erc721_data_with_priority
                               [xaa] 7 (list_byte_of_string "meta") 3);
               bridge.Bytes []]]).
Proof.
  intros plain urgent.
  assert (H0 : bridge.Priority plain = 0) by reflexivity.
  assert (H3 : bridge.Priority urgent <> 0) by (simpl; lia).
  split; split; try assumption.
  - exact (proj1 (proj1 (deposit_priority_encoding bridge.accepting_chain
             bridge.sample_erc20_data bridge.sample_erc20_data_with_priority
             bridge.sample_erc721_data bridge.sample_erc721_data_with_priority
             [xaa] 5 7 "meta" (repeat x00 32) x02 [] plain []) H0)).
  - exact (proj2 (proj2 (deposit_priority_encoding bridge.accepting_chain
             bridge.sample_erc20_data bridge.sample_erc20_data_with_priority
             bridge.sample_erc721_data bridge.sample_erc721_data_with_priority
             [xaa] 5 7 "meta" (repeat x00 32) x02 [] urgent []) H3)).
Defined.

(** C10 at the nonce 2^63. *)
Lemma IsProposalExecuted_nonce_wraps_witness :
  let p := bridge.sample_proposal (2 ^ 63) in
  2 ^ 63 <= bridge.DepositNonce p < 2 ^ 64
  /\ snd (bridge.IsProposalExecuted
            (bridge.answering_chain ([bridge.Bool true], None)) p [])
     = [bridge.Query "isProposalExecuted"
          [bridge.Uint8 x01; bridge.BigInt (2 ^ 63 - 2 ^ 64)]].
Proof.
  intros p.
  assert (Hn : 2 ^ 63 <= bridge.DepositNonce p < 2 ^ 64) by (simpl; lia).
  split; [exact Hn|].
  exact (proj1 (IsProposalExecuted_nonce_wraps
                  (bridge.answering_chain ([bridge.Bool true], None)) p [] Hn)).
Defined.

(** C6 at the nonce 2^63. The read carries -2^63 in the place of the
    deposit nonce, while [ExecuteProposal] sends the nonce of the same
    proposal as it is. *)
Theorem IsProposalExecuted_at_2_63 :
  let p := bridge.sample_proposal 9223372036854775808 in
  bridge.wf_proposal p
  /\ bridge.trace (bridge.IsProposalExecuted
                     (bridge.answering_chain ([bridge.Bool true], None)) p)
     = [bridge.Query "isProposalExecuted"
          [bridge.Uint8 (bridge.Source p);
           bridge.BigInt (-9223372036854775808)]]
  /\ bridge.trace (bridge.ExecuteProposal bridge.accepting_chain
                     p [] false {| bridge.Priority := 0 |})
     = [bridge.Transact "executeProposal" {| bridge.Priority := 0 |}
          [bridge.Uint8 (bridge.Source p);
           bridge.Uint64 9223372036854775808;
           bridge.Bytes (bridge.Data p); bridge.Bytes32 (bridge.ResourceId p);
           bridge.Bytes []]].
Proof.
  intros p. split; [|split].
  - unfold bridge.wf_proposal, is_uint64. simpl. lia.
  - reflexivity.
  - reflexivity.
Qed.

(** ** The static elector *)

#[local] Instance peer_le_total : Total common.peer_le.
Proof. intros a b. unfold common.peer_le. lia. Qed.

#[local] Instance peer_le_transitive : Transitive common.peer_le.
Proof. intros a b c. unfold common.peer_le. lia. Qed.

Lemma SortPeersForSession_Permutation (peers : list string) (sid : string) :
  common.SortPeersForSession peers sid
  ≡ₚ map (fun p => {| common.ID := p; common.SessionID := sid |}) peers.
Proof. unfold common.SortPeersForSession. apply merge_sort_Permutation. Qed.

Lemma SortPeersForSession_length (peers : list string) (sid : string) :
  length (common.SortPeersForSession peers sid) = length peers.
Proof.
  rewrite (Permutation_length (SortPeersForSession_Permutation peers sid)).
  apply length_map.
Qed.

Lemma SortPeersForSession_sorted (peers : list string) (sid : string) :
  StronglySorted common.peer_le (common.SortPeersForSession peers sid).
Proof.
  unfold common.SortPeersForSession. apply StronglySorted_merge_sort; apply _.
Qed.

(** Whatever the sort, the elector reports no error. *)
Lemma Coordinator_with_no_error
    (sort : list string -> string -> list common.PeerMsg)
    (s : elector.staticCoordinatorElector) (peers : list string)
    (id : string) (err : option error) :
  elector.Coordinator_with sort s peers = Ret (id, err) -> err = None.
Proof.
  unfold elector.Coordinator_with.
  destruct (decide (length (sort peers (elector.sessionID s)) = 0%nat)).
  - intros [= _ <-]. reflexivity.
  - destruct (sort peers (elector.sessionID s)); [discriminate|].
    intros [= _ <-]. reflexivity.
Qed.

(** On a non-empty candidate list the elector returns the identity at
    the head of the sorted list. *)
Lemma Coordinator_head (sid : string) (peers : list string) :
  peers <> [] ->
  exists first rest,
    common.SortPeersForSession peers sid = first :: rest
    /\ elector.Coordinator (elector.NewCoordinatorElector sid) peers
       = Ret (common.ID first, None).
Proof.
  intros Hne.
  unfold elector.Coordinator, elector.Coordinator_with.
  cbn [elector.sessionID elector.NewCoordinatorElector].
  pose proof (SortPeersForSession_length peers sid) as Hlen.
  destruct (common.SortPeersForSession peers sid) as [|first rest] eqn:E.
  - destruct peers; [contradiction | discriminate Hlen].
  - exists first, rest. split; [reflexivity|].
    destruct (decide (length (first :: rest) = 0%nat)); [discriminate|].
    reflexivity.
Qed.

(** The elected peer is a candidate of least key. *)
Lemma Coordinator_least (sid : string) (peers : list string) :
  peers <> [] ->
  exists leader,
    elector.Coordinator (elector.NewCoordinatorElector sid) peers
    = Ret (leader, None)
    /\ leader ∈ peers
    /\ Forall (fun q => elector.candidate_key sid leader
                        <= elector.candidate_key sid q) peers.
Proof.
  intros Hne.
  destruct (Coordinator_head sid peers Hne) as (first & rest & Hs & Hc).
  pose proof (SortPeersForSession_Permutation peers sid) as Hperm.
  pose proof (SortPeersForSession_sorted peers sid) as Hsorted.
  rewrite Hs in Hperm, Hsorted.
  assert (Hin : first ∈ map (fun p => {| common.ID := p;
                                          common.SessionID := sid |}) peers).
  { rewrite <- Hperm. apply list_elem_of_here. }
  apply list_elem_of_fmap in Hin as (p & Hfirst & Hp).
  exists (common.ID first). split; [exact Hc|]. subst first. cbn [common.ID].
  split; [exact Hp|].
  apply Forall_forall. intros q Hq.
  assert (Hq' : {| common.ID := q; common.SessionID := sid |}
                ∈ {| common.ID := p; common.SessionID := sid |} :: rest).
  { rewrite Hperm. apply list_elem_of_fmap. exists q. split; [reflexivity|exact Hq]. }
  apply StronglySorted_inv in Hsorted as [_ Hall].
  apply elem_of_cons in Hq' as [Heq|Hrest].
  - unfold elector.candidate_key. rewrite Heq. lia.
  - rewrite Forall_forall in Hall. exact (Hall _ Hrest).
Qed.

(** C4. For a session id and a non-empty candidate set the static
    elector returns, without error, the candidate whose Keccak256 key
    (the hash of the peer id followed by the session id) is least; and as
    long as no two candidates share a key, it returns that same candidate
    for every other presentation of the set, whatever the order or the
    repetitions in the list. The elector is a function of its arguments:
    nothing is exchanged with other peers. *)
Theorem static_elector_deterministic (sid : string) (peers : list string) :
  peers <> [] ->
  exists leader,
    elector.Coordinator (elector.NewCoordinatorElector sid) peers
    = Ret (leader, None)
    /\ leader ∈ peers
    /\ Forall (fun q => elector.candidate_key sid leader
                        <= elector.candidate_key sid q) peers
    /\ (forall peers' : list string,
          (forall x, x ∈ peers' <-> x ∈ peers) ->
          elector.collision_free sid peers ->
          elector.Coordinator (elector.NewCoordinatorElector sid) peers'
          = Ret (leader, None)).
Proof.
  intros Hne.
  destruct (Coordinator_least sid peers Hne) as (leader & Hc & Hin & Hmin).
  exists leader. repeat split; try assumption.
  intros peers' Hsame Hfree.
  assert (Hne' : peers' <> []).
  { intros ->. apply Hsame in Hin. by apply elem_of_nil in Hin. }
  destruct (Coordinator_least sid peers' Hne') as (leader' & Hc' & Hin' & Hmin').
  rewrite Hc'. f_equal. f_equal.
  rewrite Forall_forall in Hmin, Hmin'.
  apply Hsame in Hin'.
  pose proof (Hmin leader' Hin') as H1.
  pose proof (Hmin' leader (proj2 (Hsame leader) Hin)) as H2.
  unfold elector.collision_free in Hfree.
  rewrite Forall_forall in Hfree. specialize (Hfree leader' Hin').
  rewrite Forall_forall in Hfree. apply (Hfree leader Hin). lia.
Qed.

Example Coordinator_three_peers :
  elector.Coordinator (elector.NewCoordinatorElector "keygen-1")
    ["QmAlice"; "QmBob"; "QmCarol"]%string
  = Ret ("QmBob"%string, None).
Proof. vm_compute. reflexivity. Qed.

(** C4 at three candidates: the same leader for the list and for a
    shuffled copy of it with a repetition. *)
Lemma static_elector_deterministic_witness :
  exists leader,
    elector.Coordinator (elector.NewCoordinatorElector "keygen-1")
      ["QmAlice"; "QmBob"; "QmCarol"]%string
    = Ret (leader, None)
    /\ elector.Coordinator (elector.NewCoordinatorElector "keygen-1")
         ["QmCarol"; "QmAlice"; "QmBob"; "QmAlice"]%string
       = Ret (leader, None).
Proof.
  assert (Hne : ["QmAlice"; "QmBob"; "QmCarol"]%string <> []) by discriminate.
  destruct (static_elector_deterministic "keygen-1"
              ["QmAlice"; "QmBob"; "QmCarol"]%string Hne)
    as (leader & Hc & _ & _ & Hany).
  exists leader. split; [exact Hc|].
  apply Hany.
  - intros x. rewrite !elem_of_cons, !elem_of_nil. tauto.
  - apply (bool_decide_unpack (elector.collision_free _ _)).
    vm_compute. exact I.
Defined.

(** C3, as the code has it. Given no candidates, the elector returns the
    empty peer id together with a nil error. *)
Theorem Coordinator_empty (sid : string) :
  elector.Coordinator (elector.NewCoordinatorElector sid) []
  = Ret (EmptyString, None).
Proof. reflexivity. Qed.

(** C3, as stated, fails: on the empty candidate set the elector does not
    return an error. *)
Lemma Coordinator_empty_no_error :
  ~ (exists id e,
       elector.Coordinator (elector.NewCoordinatorElector "keygen-1") []
       = Ret (id, Some e)).
Proof.
  intros (id & e & H). cbv in H. discriminate H.
Qed.

(** ** The process entry point *)

Lemma is_evm_true (v : option app.ConfigValue) :
  app.is_evm v = true <-> v = Some (app.VString "evm").
Proof.
  unfold app.is_evm. destruct v as [[s|printed]|].
  - rewrite bool_decide_eq_true. split; [intros ->; reflexivity|].
    intros [= ->]. reflexivity.
  - split; discriminate.
  - split; discriminate.
Qed.








(** ** Signals and the error channel *)

Lemma subscribed_signals_exactly (sig : Z) :
  sig ∈ app.subscribed_signals
  <-> sig = app.SIGTERM \/ sig = app.SIGINT \/ sig = app.SIGHUP
      \/ sig = app.SIGQUIT.
Proof.
  unfold app.subscribed_signals.
  rewrite !elem_of_cons, elem_of_nil. tauto.
Qed.

(** Signals that were not registered do not wake the [select]. *)
Lemma select_skips (skipped rest : list app.Event) :
  Forall (fun ev => exists sig, ev = app.Signal sig
                                /\ sig ∉ app.subscribed_signals) skipped ->
  app.select app.subscribed_signals (skipped ++ rest)
  = app.select app.subscribed_signals rest.
Proof.
  induction 1 as [|ev skipped (sig & -> & Hsig) _ IH]; [reflexivity|].
  cbn [app app.select].
  destruct (decide (sig ∈ app.subscribed_signals)); [contradiction|].
  exact IH.
Qed.

(** C7. [Run] registers SIGTERM, SIGINT, SIGHUP and SIGQUIT and no other
    signal. Once the relayer is started, the first of these signals to
    arrive makes [Run] cancel the context and return nil, and a value
    received on the error channel, in particular a non-nil error, makes
    [Run] cancel the context and return that value. Signals that were not
    registered, arriving earlier, change nothing. *)
Theorem Run_signals_and_errors (env : app.Env)
    (chains : list app.RelayedChain) (skipped rest : list app.Event) :
  app.startup env = Ret chains ->
  Forall (fun ev => exists sig, ev = app.Signal sig
                                /\ sig ∉ app.subscribed_signals) skipped ->
  (forall sig,
     sig ∈ app.subscribed_signals
     <-> sig = app.SIGTERM \/ sig = app.SIGINT \/ sig = app.SIGHUP
         \/ sig = app.SIGQUIT)
  /\ (forall sig,
        sig ∈ app.subscribed_signals ->
        app.Run env (skipped ++ app.Signal sig :: rest)
        = (app.Returned None,
           [app.StartRelayer chains;
            app.Notify [app.SIGTERM; app.SIGINT; app.SIGHUP; app.SIGQUIT];
            app.Cancel]))
  /\ (forall err,
        app.Run env (skipped ++ app.RelayerError err :: rest)
        = (app.Returned err,
           [app.StartRelayer chains;
            app.Notify [app.SIGTERM; app.SIGINT; app.SIGHUP; app.SIGQUIT];
            app.Cancel])).
Proof.
  intros Hstart Hskipped.
  split; [exact subscribed_signals_exactly|].
  split.
  - intros sig Hsig. unfold app.Run. rewrite Hstart.
    rewrite (select_skips _ _ Hskipped). cbn [app.select].
    destruct (decide (sig ∈ app.subscribed_signals)); [|contradiction].
    reflexivity.
  - intros err. unfold app.Run. rewrite Hstart.
    rewrite (select_skips _ _ Hskipped). reflexivity.
Qed.

(** C7 with one [evm] chain: SIGUSR1 (10) is not registered and is passed
    over; SIGINT ends [Run] with nil, an error from the relayer ends it
    with that error. *)
Lemma Run_signals_and_errors_witness :
  let chains :=
    [{| app.chain_config :=
          {| app.Bridge := "0x01"; app.Erc20Handler := "0x02";
             app.Erc721Handler := "0x03"; app.GenericHandler := "0x04" |} |}] in
  let effects :=
    [app.StartRelayer chains;
     app.Notify [app.SIGTERM; app.SIGINT; app.SIGHUP; app.SIGQUIT];
     app.Cancel] in
  app.Run (app.sample_env [app.evm_chain])
    [app.Signal 10; app.Signal app.SIGINT; app.RelayerError (Some "late")]
  = (app.Returned None, effects)
  /\ app.Run (app.sample_env [app.evm_chain])
       [app.Signal 10; app.RelayerError (Some "failed to listen");
        app.Signal app.SIGTERM]
     = (app.Returned (Some "failed to listen"), effects).
Proof.
  intros chains effects.
  assert (Hstart : app.startup (app.sample_env [app.evm_chain]) = Ret chains)
    by (vm_compute; reflexivity).
  assert (Hskipped :
            Forall (fun ev => exists sig, ev = app.Signal sig
                                          /\ sig ∉ app.subscribed_signals)
                   [app.Signal 10]).
  { apply Forall_cons_2; [|apply Forall_nil_2].
    exists 10. split; [reflexivity|].
    rewrite subscribed_signals_exactly.
    unfold app.SIGTERM, app.SIGINT, app.SIGHUP, app.SIGQUIT. lia. }
  split.
  - apply (proj1 (proj2 (Run_signals_and_errors
             (app.sample_env [app.evm_chain]) chains [app.Signal 10]
             [app.RelayerError (Some "late")] Hstart Hskipped))
             app.SIGINT).
    apply subscribed_signals_exactly. right. left. reflexivity.
  - apply (proj2 (proj2 (Run_signals_and_errors
             (app.sample_env [app.evm_chain]) chains [app.Signal 10]
             [app.Signal app.SIGTERM] Hstart Hskipped))
             (Some "failed to listen"%string)).
Defined.

(** * Further properties of the code *)

(** ** The digest and the bytes it is taken of *)

Lemma round_length (A : list Z) (rc : Z) : length (Keccak.round A rc) = 25%nat.
Proof.
  unfold Keccak.round.
  assert (H : length (Keccak.chi (Keccak.rho_pi (Keccak.theta A))) = 25%nat).
  { unfold Keccak.chi. rewrite length_map, length_seq. reflexivity. }
  destruct (Keccak.chi (Keccak.rho_pi (Keccak.theta A))); [discriminate H|].
  exact H.
Qed.

Lemma keccak_f_length (A : list Z) : length (Keccak.keccak_f A) = 25%nat.
Proof.
  unfold Keccak.keccak_f, Keccak.RC. cbn [fold_left]. apply round_length.
Qed.

Lemma absorb_length (fuel : nat) (A bs : list Z) :
  length A = 25%nat -> length (Keccak.absorb fuel A bs) = 25%nat.
Proof.
  revert A bs. induction fuel as [|fuel IH]; intros A bs HA.
  - destruct bs; exact HA.
  - destruct bs as [|b bs]; [exact HA|].
    cbn [Keccak.absorb]. apply IH, keccak_f_length.
Qed.

Lemma squeeze_length (A : list Z) :
  length A = 25%nat -> length (Keccak.squeeze A) = 32%nat.
Proof.
  intros HA.
  destruct A as [|a0 [|a1 [|a2 [|a3 A]]]]; try discriminate HA.
  reflexivity.
Qed.

(** A Keccak256 digest has 32 bytes. *)
Lemma Keccak256_length (msg : list byte) :
  length (Keccak.Keccak256 msg) = 32%nat.
Proof.
  unfold Keccak.Keccak256. rewrite length_map.
  apply squeeze_length, absorb_length, repeat_length.
Qed.

Lemma proposalBytes_layout (p : bridge.Proposal) :
  proposalBytes p
  = Ret (bridge.Source p :: bridge.Destination p
         :: be_encode 8 (bridge.DepositNonce p)
         ++ bridge.Data p ++ bridge.ResourceId p).
Proof.
  unfold proposalBytes. rewrite PutUint64_be_encode.
  cbn [go_bind bytes_Join]. rewrite !app_nil_l. reflexivity.
Qed.

Lemma ProposalHash_of_proposalBytes (p : bridge.Proposal) :
  bridge.ProposalHash p
  = go_bind (proposalBytes p) (fun b => Ret (Keccak.Keccak256 b, None)).
Proof.
  unfold bridge.ProposalHash, proposalBytes.
  destruct (PutUint64 (repeat x00 8) (bridge.DepositNonce p)); reflexivity.
Qed.

(** Two proposals of the Go type that are laid out to the same bytes
    agree on every field that is laid out. *)
Lemma proposalBytes_inj (p q : bridge.Proposal) :
  bridge.wf_proposal p -> bridge.wf_proposal q ->
  proposalBytes p = proposalBytes q ->
  bridge.Source p = bridge.Source q
  /\ bridge.Destination p = bridge.Destination q
  /\ bridge.DepositNonce p = bridge.DepositNonce q
  /\ bridge.Data p = bridge.Data q
  /\ bridge.ResourceId p = bridge.ResourceId q.
Proof.
  intros (Hnp & Hrp & _) (Hnq & Hrq & _).
  rewrite !proposalBytes_layout.
  remember (be_encode 8 (bridge.DepositNonce p)) as np eqn:Enp.
  remember (be_encode 8 (bridge.DepositNonce q)) as nq eqn:Enq.
  intros [= Hs Hd Hrest].
  apply app_inj_1 in Hrest as [Hn Hrest];
    [|rewrite Enp, Enq, !be_encode_length; reflexivity].
  subst np nq.
  apply app_inj_2 in Hrest as [Hdata Hrid]; [|congruence].
  repeat split; try assumption.
  rewrite <- (be_decode_encode_uint64 _ Hnp), <- (be_decode_encode_uint64 _ Hnq).
  rewrite Hn. reflexivity.
Qed.

(** X1. [ProposalHash] hashes the bytes [proposalBytes], and for
    proposals of the Go type (64-bit nonce, 32-byte resource id) these
    bytes determine the source, the destination, the nonce, the data and
    the resource id: two proposals that differ in one of them are hashed
    from different bytes. *)
Theorem hash_input_determines_proposal (p q : bridge.Proposal) :
  bridge.wf_proposal p -> bridge.wf_proposal q ->
  bridge.ProposalHash p
  = go_bind (proposalBytes p) (fun b => Ret (Keccak.Keccak256 b, None))
  /\ (proposalBytes p = proposalBytes q ->
      bridge.Source p = bridge.Source q
      /\ bridge.Destination p = bridge.Destination q
      /\ bridge.DepositNonce p = bridge.DepositNonce q
      /\ bridge.Data p = bridge.Data q
      /\ bridge.ResourceId p = bridge.ResourceId q).
Proof.
  intros Hp Hq. split.
  - apply ProposalHash_of_proposalBytes.
  - apply proposalBytes_inj; assumption.
Qed.

Lemma sample_proposal_wf (nonce : Z) (addr : list byte) :
  is_uint64 nonce -> length addr = 20%nat ->
  bridge.wf_proposal (with_handler (bridge.sample_proposal nonce) addr).
Proof.
  intros Hn Ha. unfold bridge.wf_proposal. cbn. auto.
Qed.

(** X1 at two proposals with the nonce 42 and different handlers. *)
Lemma hash_input_determines_proposal_witness :
  let p := with_handler (bridge.sample_proposal 42) (repeat x00 20) in
  let q := with_handler (bridge.sample_proposal 42) (repeat xff 20) in
  bridge.Source p = bridge.Source q
  /\ bridge.Destination p = bridge.Destination q
  /\ bridge.DepositNonce p = bridge.DepositNonce q
  /\ bridge.Data p = bridge.Data q
  /\ bridge.ResourceId p = bridge.ResourceId q.
Proof.
  intros p q.
  assert (H42 : is_uint64 42) by (unfold is_uint64; lia).
  assert (Hp : bridge.wf_proposal p)
    by (apply sample_proposal_wf; [exact H42|reflexivity]).
  assert (Hq : bridge.wf_proposal q)
    by (apply sample_proposal_wf; [exact H42|reflexivity]).
  apply (proj2 (hash_input_determines_proposal p q Hp Hq)).
  vm_compute. reflexivity.
Defined.

(** X2. [ProposalHash] returns a digest of 32 bytes with a nil error for
    every proposal, and the digest does not depend on the handler
    address: the handler is not among the hashed bytes. *)
Theorem ProposalHash_digest (p : bridge.Proposal) :
  exists h,
    bridge.ProposalHash p = Ret (h, None)
    /\ length h = 32%nat
    /\ forall addr, bridge.ProposalHash (with_handler p addr) = Ret (h, None).
Proof.
  exists (Keccak.Keccak256
            (bridge.Source p :: bridge.Destination p
             :: be_encode 8 (bridge.DepositNonce p)
             ++ bridge.Data p ++ bridge.ResourceId p)).
  split; [|split].
  - rewrite ProposalHash_of_proposalBytes, proposalBytes_layout. reflexivity.
  - apply Keccak256_length.
  - intros addr.
    rewrite ProposalHash_of_proposalBytes, proposalBytes_layout. reflexivity.
Qed.



(** ** What the wrapper methods hand back *)

Section BridgeResults.

Variable transact_reply :
  list bridge.Invocation -> string -> bridge.TransactOptions ->
  list bridge.ABIValue -> option (list byte) * option error.
Variable call_reply :
  list bridge.Invocation -> string -> list bridge.ABIValue ->
  list bridge.ABIValue * option error.
Variable ConstructErc20DepositData : list byte -> Z -> list byte.
Variable ConstructErc20DepositDataWithPriority :
  list byte -> Z -> Z -> list byte.
Variable ConstructErc721DepositData :
  list byte -> Z -> list byte -> list byte.
Variable ConstructErc721DepositDataWithPriority :
  list byte -> Z -> list byte -> Z -> list byte.
Variable ConstructGenericDepositData : list byte -> list byte.

Local Abbreviation call :=
  (bridge.call transact_reply call_reply ConstructErc20DepositData
     ConstructErc20DepositDataWithPriority ConstructErc721DepositData
     ConstructErc721DepositDataWithPriority ConstructGenericDepositData).

Lemma deposit_tail_returns (rid : list byte) (dest : byte)
    (data fee : list byte) (opts : bridge.TransactOptions)
    (log : list bridge.Invocation)
    (h : option (list byte)) (err : option error) :
  fst (bridge.bind (bridge.deposit transact_reply rid dest data fee opts)
         (fun x => match x with
                   | (txHash, err) =>
                       match err with
                       | Some e => bridge.ret (None, Some e)
                       | None => bridge.ret (txHash, err)
                       end
                   end) log)
  = Ret (h, err) ->
  let reply :=
    transact_reply log "deposit" opts
      [bridge.Uint8 dest; bridge.Bytes32 rid; bridge.Bytes data;
       bridge.Bytes fee] in
  err = snd reply
  /\ (err = None -> h = fst reply)
  /\ (err <> None -> h = None).
Proof.
  unfold bridge.bind, bridge.deposit, bridge.ExecuteTransaction.
  cbn [fst snd].
  destruct (transact_reply log "deposit" opts _) as [txHash [e|]];
    cbn; intros [= <- <-]; repeat split; congruence.
Qed.

(** X4. Whenever one of the three deposit methods returns, the error it
    returns is the one the [deposit] transaction reported, and it returns
    a hash only without an error: with an error the hash is nil, also
    when the transactor had produced one, and without an error the hash
    is the transactor's. *)
Theorem deposits_hash_or_error
    (recipient : list byte) (amount tokenId : Z) (metadata : string)
    (generic rid : list byte) (dest : byte) (fee : list byte)
    (opts : bridge.TransactOptions) (log : list bridge.Invocation)
    (h : option (list byte)) (err : option error) :
  fst (bridge.Erc20Deposit transact_reply ConstructErc20DepositData
         ConstructErc20DepositDataWithPriority
         recipient amount rid dest fee opts log) = Ret (h, err)
  \/ fst (bridge.Erc721Deposit transact_reply ConstructErc721DepositData
            ConstructErc721DepositDataWithPriority
            tokenId metadata recipient rid dest fee opts log) = Ret (h, err)
  \/ fst (bridge.GenericDeposit transact_reply ConstructGenericDepositData
            generic rid dest fee opts log) = Ret (h, err) ->
  exists data,
    err = snd (transact_reply log "deposit" opts
                 [bridge.Uint8 dest; bridge.Bytes32 rid; bridge.Bytes data;
                  bridge.Bytes fee])
    /\ (err = None ->
        h = fst (transact_reply log "deposit" opts
                   [bridge.Uint8 dest; bridge.Bytes32 rid; bridge.Bytes data;
                    bridge.Bytes fee]))
    /\ (err <> None -> h = None).
Proof.
  unfold bridge.Erc20Deposit, bridge.Erc721Deposit, bridge.GenericDeposit.
  intros [H|[H|H]]; eexists; exact (deposit_tail_returns _ _ _ _ _ _ _ _ H).
Qed.

(** X5. [IsProposalExecuted] returns [false] with the error when the read
    fails, whatever the values that came with it; the boolean at the head
    of the results when the read succeeds, whatever follows it; and it
    panics when a successful read carries no result or a first result
    that is not a boolean. *)
Theorem IsProposalExecuted_outcomes (p : bridge.Proposal)
    (log : list bridge.Invocation) :
  let reply :=
    call_reply log "isProposalExecuted"
      [bridge.Uint8 (bridge.Source p);
       bridge.BigInt (int64 (bridge.DepositNonce p))] in
  let out := fst (bridge.IsProposalExecuted call_reply p log) in
  (forall res e, reply = (res, Some e) -> out = Ret (false, Some e))
  /\ (forall b rest, reply = (bridge.Bool b :: rest, None) ->
        out = Ret (b, None))
  /\ (reply = ([], None) -> exists msg, out = Panics msg)
  /\ (forall v rest, reply = (v :: rest, None) ->
        (forall b, v <> bridge.Bool b) -> exists msg, out = Panics msg).
Proof.
  intros reply out. subst reply out.
  unfold bridge.IsProposalExecuted, bridge.bind, bridge.CallContract.
  repeat split.
  - intros res e ->. reflexivity.
  - intros b rest ->. reflexivity.
  - intros ->. eexists. reflexivity.
  - intros v rest -> Hv. destruct v; try (eexists; reflexivity).
    exfalso. exact (Hv _ eq_refl).
Qed.

(** X6. [GetHandlerAddressForResourceID] returns the zero address with
    the error when the read fails, whatever came with the error, and it
    panics when a successful read carries no result. Of a successful read
    it returns, with a nil error, the address at the head of the results;
    when the head is a byte slice of 20 bytes or more, its first 20
    bytes; when the head is a byte array, its first 20 bytes, filled up
    with zeros if it is shorter. It panics when the head is a boolean or
    an unsigned integer. *)
Theorem GetHandlerAddressForResourceID_outcomes (resourceID : list byte)
    (log : list bridge.Invocation) :
  let reply :=
    call_reply log "_resourceIDToHandlerAddress" [bridge.Bytes32 resourceID] in
  let out :=
    fst (bridge.GetHandlerAddressForResourceID call_reply resourceID log) in
  (forall res e, reply = (res, Some e) -> out = Ret (repeat x00 20, Some e))
  /\ (reply = ([], None) -> exists msg, out = Panics msg)
  /\ (forall a rest, reply = (bridge.Address a :: rest, None) ->
        out = Ret (a, None))
  /\ (forall bs rest, reply = (bridge.Bytes bs :: rest, None) ->
        (20 <= length bs)%nat -> out = Ret (firstn 20 bs, None))
  /\ (forall bs rest,
        reply = (bridge.Bytes32 bs :: rest, None)
        \/ reply = (bridge.Bytes4 bs :: rest, None) ->
        out = Ret (firstn 20 (bs ++ repeat x00 20), None))
  /\ (forall v rest, reply = (v :: rest, None) ->
        (exists b, v = bridge.Bool b) \/ (exists n, v = bridge.Uint8 n)
        \/ (exists n, v = bridge.Uint64 n) ->
        exists msg, out = Panics msg).
Proof.
  intros reply out. subst reply out.
  unfold bridge.GetHandlerAddressForResourceID, bridge.bind,
    bridge.CallContract.
  split; [|split; [|split; [|split; [|split]]]].
  - intros res e ->. reflexivity.
  - intros ->. eexists. reflexivity.
  - intros a rest ->. reflexivity.
  - intros bs rest -> Hlen. cbn.
    destruct (decide (length bs < 20)%nat); [lia|]. reflexivity.
  - intros bs rest [-> | ->]; reflexivity.
  - intros v rest -> [[b ->]|[[n ->]|[n ->]]]; eexists; reflexivity.
Qed.

End BridgeResults.

(** X5 on four answers of the chain. *)
Lemma IsProposalExecuted_outcomes_witness :
  let p := bridge.sample_proposal 42 in
  fst (bridge.IsProposalExecuted
         (bridge.answering_chain ([bridge.Bool true], Some "rpc down"%string))
         p [])
  = Ret (false, Some "rpc down"%string)
  /\ fst (bridge.IsProposalExecuted
            (bridge.answering_chain
               ([bridge.Bool true; bridge.Uint8 x00], None)) p [])
     = Ret (true, None)
  /\ (exists msg,
        fst (bridge.IsProposalExecuted
               (bridge.answering_chain ([], None)) p [])
        = Panics msg)
  /\ (exists msg,
        fst (bridge.IsProposalExecuted
               (bridge.answering_chain ([bridge.Uint8 x01], None)) p [])
        = Panics msg).
Proof.
  intros p. split; [|split; [|split]].
  - exact (proj1 (IsProposalExecuted_outcomes
                    (bridge.answering_chain
                       ([bridge.Bool true], Some "rpc down"%string)) p [])
                 [bridge.Bool true] "rpc down"%string eq_refl).
  - exact (proj1 (proj2 (IsProposalExecuted_outcomes
                    (bridge.answering_chain
                       ([bridge.Bool true; bridge.Uint8 x00], None)) p []))
                 true [bridge.Uint8 x00] eq_refl).
  - exact (proj1 (proj2 (proj2 (IsProposalExecuted_outcomes
                    (bridge.answering_chain ([], None)) p [])))
                 eq_refl).
  - apply (proj2 (proj2 (proj2 (IsProposalExecuted_outcomes
                    (bridge.answering_chain ([bridge.Uint8 x01], None)) p [])))
                 (bridge.Uint8 x01) [] eq_refl).
    intros b. discriminate.
Defined.

(** X6 on answers of the chain of each kind. *)
Lemma GetHandlerAddressForResourceID_outcomes_witness :
  let rid := repeat x00 31 ++ [x01] in
  let run res :=
    fst (bridge.GetHandlerAddressForResourceID (bridge.answering_chain res)
           rid []) in
  run ([bridge.Address (repeat xff 20)], Some "rpc down"%string)
  = Ret (repeat x00 20, Some "rpc down"%string)
  /\ (exists msg, run ([], None) = Panics msg)
  /\ run ([bridge.Address (repeat xff 20)], None) = Ret (repeat xff 20, None)
  /\ run ([bridge.Bytes (repeat x11 20 ++ [x22])], None)
     = Ret (repeat x11 20, None)
  /\ run ([bridge.Bytes4 [x01; x02; x03; x04]], None)
     = Ret ([x01; x02; x03; x04] ++ repeat x00 16, None)
  /\ (exists msg, run ([bridge.Bool true], None) = Panics msg).
Proof.
  intros rid run. subst run. cbv beta.
  split; [|split; [|split; [|split; [|split]]]].
  - exact (proj1 (GetHandlerAddressForResourceID_outcomes
                    (bridge.answering_chain
                       ([bridge.Address (repeat xff 20)],
                        Some "rpc down"%string)) rid [])
                 [bridge.Address (repeat xff 20)] "rpc down"%string eq_refl).
  - exact (proj1 (proj2 (GetHandlerAddressForResourceID_outcomes
                    (bridge.answering_chain ([], None)) rid []))
                 eq_refl).
  - exact (proj1 (proj2 (proj2 (GetHandlerAddressForResourceID_outcomes
                    (bridge.answering_chain
                       ([bridge.Address (repeat xff 20)], None)) rid [])))
                 (repeat xff 20) [] eq_refl).
  - apply (proj1 (proj2 (proj2 (proj2 (GetHandlerAddressForResourceID_outcomes
                    (bridge.answering_chain
                       ([bridge.Bytes (repeat x11 20 ++ [x22])], None))
                    rid []))))
                 (repeat x11 20 ++ [x22]) [] eq_refl).
    simpl. lia.
  - exact (proj1 (proj2 (proj2 (proj2 (proj2
                   (GetHandlerAddressForResourceID_outcomes
                      (bridge.answering_chain
                         ([bridge.Bytes4 [x01; x02; x03; x04]], None))
                      rid [])))))
                 [x01; x02; x03; x04] [] (or_intror eq_refl)).
  - apply (proj2 (proj2 (proj2 (proj2 (proj2
                   (GetHandlerAddressForResourceID_outcomes
                      (bridge.answering_chain ([bridge.Bool true], None))
                      rid [])))))
                 (bridge.Bool true) [] eq_refl).
    left. exists true. reflexivity.
Defined.

(** X4 at a transactor that reports an error and a hash: the hash is
    dropped. *)
Lemma deposits_hash_or_error_witness :
  let opts := {| bridge.Priority := 0 |} in
  let reply data :=
    failing_chain [] "deposit" opts
      [bridge.Uint8 x02; bridge.Bytes32 (repeat x00 32); bridge.Bytes data;
       bridge.Bytes []] in
  fst (bridge.Erc20Deposit failing_chain bridge.sample_erc20_data
         bridge.sample_erc20_data_with_priority
         [xaa] 5 (repeat x00 32) x02 [] opts [])
  = Ret (None, Some "execution reverted"%string)
  /\ exists data,
       Some "execution reverted"%string = snd (reply data)
       /\ (Some "execution reverted"%string = None ->
           None = fst (reply data))
       /\ (Some "execution reverted"%string <> None ->
           @None (list byte) = None).
Proof.
  intros opts reply. subst reply. cbv beta.
  assert (H : fst (bridge.Erc20Deposit failing_chain bridge.sample_erc20_data
                     bridge.sample_erc20_data_with_priority
                     [xaa] 5 (repeat x00 32) x02 [] opts [])
              = Ret (None, Some "execution reverted"%string))
    by reflexivity.
  split; [exact H|].
  apply (deposits_hash_or_error failing_chain bridge.sample_erc20_data
           bridge.sample_erc20_data_with_priority bridge.sample_erc721_data
           bridge.sample_erc721_data_with_priority bridge.sample_generic_data
           [xaa] 5 7 "meta" [x01] (repeat x00 32) x02 [] opts [] None
           (Some "execution reverted"%string)).
  left. exact H.
Defined.

(** ** The withdrawal data *)

Lemma LeftPadBytes_length (slice : list byte) (l : nat) :
  length (LeftPadBytes slice l) = Nat.max l (length slice).
Proof.
  unfold LeftPadBytes. destruct (decide (l <= length slice)%nat).
  - lia.
  - rewrite length_app, repeat_length. lia.
Qed.

Lemma LeftPadBytes_short (slice : list byte) (l : nat) :
  (length slice <= l)%nat ->
  LeftPadBytes slice l = repeat x00 (l - length slice) ++ slice.
Proof.
  intros Hl. unfold LeftPadBytes.
  destruct (decide (l <= length slice)%nat) as [Hle|]; [|reflexivity].
  replace (l - length slice)%nat with 0%nat by lia. reflexivity.
Qed.

Lemma be_decode_fold (bs : list byte) (acc : Z) :
  fold_left (fun a b => 256 * a + byte_to_Z b) bs acc
  = acc * 256 ^ Z.of_nat (length bs) + be_decode bs.
Proof.
  unfold be_decode. revert acc. induction bs as [|b bs IH]; intros acc.
  - simpl. lia.
  - cbn [fold_left length]. rewrite (IH (256 * acc + byte_to_Z b)).
    rewrite (IH (256 * 0 + byte_to_Z b)).
    rewrite Nat2Z.inj_succ, Z.pow_succ_r by lia. lia.
Qed.

Lemma be_decode_cons (b : byte) (bs : list byte) :
  be_decode (b :: bs)
  = byte_to_Z b * 256 ^ Z.of_nat (length bs) + be_decode bs.
Proof.
  unfold be_decode at 1. cbn [fold_left]. rewrite be_decode_fold. lia.
Qed.

Lemma be_decode_zeros (k : nat) (bs : list byte) :
  be_decode (repeat x00 k ++ bs) = be_decode bs.
Proof.
  induction k as [|k IH]; [reflexivity|].
  cbn [repeat app]. rewrite be_decode_cons, IH.
  change (byte_to_Z x00) with 0. lia.
Qed.

Lemma be_min_bytes_decode (fuel : nat) (z : Z) (acc : list byte) :
  0 <= z < 256 ^ Z.of_nat fuel ->
  be_decode (be_min_bytes fuel z acc)
  = z * 256 ^ Z.of_nat (length acc) + be_decode acc.
Proof.
  revert z acc. induction fuel as [|fuel IH]; intros z acc Hz.
  - cbn [be_min_bytes]. change (256 ^ Z.of_nat 0) with 1 in Hz.
    replace z with 0 by lia. lia.
  - cbn [be_min_bytes]. destruct (decide (z = 0)) as [->|Hnz]; [lia|].
    rewrite Nat2Z.inj_succ, Z.pow_succ_r in Hz by lia.
    rewrite IH.
    + rewrite be_decode_cons, byte_to_of_Z. cbn [length].
      rewrite Nat2Z.inj_succ, Z.pow_succ_r by lia.
      pose proof (Z.div_mod z 256 ltac:(lia)) as Hdm.
      rewrite Z.mod_mod by lia. nia.
    + split; [apply Z.div_pos; lia|].
      apply Z.div_lt_upper_bound; lia.
Qed.

Lemma be_min_bytes_length_le (fuel n : nat) (z : Z) (acc : list byte) :
  0 <= z < 256 ^ Z.of_nat n ->
  (length (be_min_bytes fuel z acc) <= n + length acc)%nat.
Proof.
  revert n z acc. induction fuel as [|fuel IH]; intros n z acc Hz.
  - cbn [be_min_bytes]. lia.
  - cbn [be_min_bytes]. destruct (decide (z = 0)) as [->|Hnz]; [lia|].
    destruct n as [|n].
    + change (256 ^ Z.of_nat 0) with 1 in Hz. lia.
    + rewrite Nat2Z.inj_succ, Z.pow_succ_r in Hz by lia.
      specialize (IH n (z / 256) (byte_of_Z (z mod 256) :: acc)).
      cbn [length] in IH.
      assert (0 <= z / 256 < 256 ^ Z.of_nat n).
      { split; [apply Z.div_pos; lia|].
        apply Z.div_lt_upper_bound; lia. }
      specialize (IH ltac:(assumption)). lia.
Qed.

Lemma be_min_bytes_length_acc (fuel : nat) (z : Z) (acc : list byte) :
  (length acc <= length (be_min_bytes fuel z acc))%nat.
Proof.
  revert z acc. induction fuel as [|fuel IH]; intros z acc;
    cbn [be_min_bytes]; [lia|].
  destruct (decide (z = 0)); [lia|].
  specialize (IH (z / 256) (byte_of_Z (z mod 256) :: acc)).
  cbn [length] in IH. lia.
Qed.

Lemma be_min_bytes_length_gt (fuel n : nat) (z : Z) (acc : list byte) :
  256 ^ Z.of_nat n <= z < 256 ^ Z.of_nat fuel ->
  (n + length acc < length (be_min_bytes fuel z acc))%nat.
Proof.
  revert fuel z acc. induction n as [|n IH]; intros fuel z acc Hz.
  - change (256 ^ Z.of_nat 0) with 1 in Hz.
    destruct fuel as [|fuel].
    + change (256 ^ Z.of_nat 0) with 1 in Hz. lia.
    + cbn [be_min_bytes]. destruct (decide (z = 0)); [lia|].
      pose proof (be_min_bytes_length_acc fuel (z / 256)
                    (byte_of_Z (z mod 256) :: acc)) as H.
      cbn [length] in H. lia.
  - assert (0 < 256 ^ Z.of_nat n) by (apply Z.pow_pos_nonneg; lia).
    rewrite Nat2Z.inj_succ, Z.pow_succ_r in Hz by lia.
    destruct fuel as [|fuel].
    + change (256 ^ Z.of_nat 0) with 1 in Hz. lia.
    + rewrite Nat2Z.inj_succ, Z.pow_succ_r in Hz by lia.
      cbn [be_min_bytes]. destruct (decide (z = 0)); [lia|].
      specialize (IH fuel (z / 256) (byte_of_Z (z mod 256) :: acc)).
      cbn [length] in IH.
      assert (256 ^ Z.of_nat n <= z / 256 < 256 ^ Z.of_nat fuel).
      { split; [apply Z.div_le_lower_bound; lia|].
        apply Z.div_lt_upper_bound; lia. }
      specialize (IH ltac:(assumption)). lia.
Qed.

(** The fuel [big_Bytes] runs on is enough for its argument. *)
Lemma big_Bytes_fuel (x : Z) :
  0 <= Z.abs x < 256 ^ Z.of_nat (S (Z.to_nat (Z.log2 (Z.abs x)))).
Proof.
  split; [lia|].
  pose proof (Z.log2_nonneg (Z.abs x)) as Hl.
  rewrite Nat2Z.inj_succ, Z2Nat.id by lia.
  destruct (decide (Z.abs x = 0)) as [->|Hnz].
  - reflexivity.
  - pose proof (Z.log2_spec (Z.abs x) ltac:(lia)) as [_ Hlt].
    eapply Z.lt_le_trans; [exact Hlt|].
    change 256 with (2 ^ 8). rewrite <- Z.pow_mul_r by lia.
    apply Z.pow_le_mono_r; lia.
Qed.

Lemma big_Bytes_decode (x : Z) : be_decode (big_Bytes x) = Z.abs x.
Proof.
  unfold big_Bytes. rewrite be_min_bytes_decode by apply big_Bytes_fuel.
  cbn. lia.
Qed.

Lemma big_Bytes_length_le (x : Z) (n : nat) :
  Z.abs x < 256 ^ Z.of_nat n -> (length (big_Bytes x) <= n)%nat.
Proof.
  intros Hx. unfold big_Bytes.
  pose proof (be_min_bytes_length_le
                (S (Z.to_nat (Z.log2 (Z.abs x)))) n (Z.abs x) []) as H.
  cbn [length] in H. specialize (H ltac:(lia)). lia.
Qed.

Lemma big_Bytes_length_gt (x : Z) (n : nat) :
  256 ^ Z.of_nat n <= Z.abs x -> (n < length (big_Bytes x))%nat.
Proof.
  intros Hx. unfold big_Bytes.
  pose proof (be_min_bytes_length_gt
                (S (Z.to_nat (Z.log2 (Z.abs x)))) n (Z.abs x) []) as H.
  cbn [length] in H.
  pose proof (big_Bytes_fuel x) as Hf.
  specialize (H ltac:(lia)). lia.
Qed.

(** X8. For 20-byte token and recipient addresses and an amount whose
    absolute value is below 2^256, [Withdraw] sends [adminWithdraw] with
    the handler and 96 bytes of data: the token address and the recipient
    address, each after twelve zero bytes, and a 32-byte word that reads,
    big-endian, as the absolute value of the amount. The sign of the
    amount is not encoded. *)
Theorem Withdraw_data_layout
    (transact_reply :
       list bridge.Invocation -> string -> bridge.TransactOptions ->
       list bridge.ABIValue -> option (list byte) * option error)
    (handler token recipient : list byte) (amount : Z)
    (opts : bridge.TransactOptions) (log : list bridge.Invocation) :
  length token = 20%nat -> length recipient = 20%nat ->
  Z.abs amount < 2 ^ 256 ->
  exists word,
    length word = 32%nat
    /\ be_decode word = Z.abs amount
    /\ snd (bridge.Withdraw transact_reply handler token recipient amount
              opts log)
       = log ++ [bridge.Transact "adminWithdraw" opts
                   [bridge.Address handler;
                    bridge.Bytes ((repeat x00 12 ++ token)
                                  ++ (repeat x00 12 ++ recipient) ++ word)]].
Proof.
  intros Ht Hr Ha.
  assert (Hlen : (length (big_Bytes amount) <= 32)%nat).
  { apply big_Bytes_length_le. change (256 ^ Z.of_nat 32) with (2 ^ 256).
    exact Ha. }
  exists (LeftPadBytes (big_Bytes amount) 32). split; [|split].
  - rewrite LeftPadBytes_length. lia.
  - rewrite LeftPadBytes_short by exact Hlen.
    rewrite be_decode_zeros. apply big_Bytes_decode.
  - unfold bridge.Withdraw, bridge.ExecuteTransaction. cbn [snd].
    rewrite (LeftPadBytes_short token) by lia.
    rewrite (LeftPadBytes_short recipient) by lia.
    rewrite Ht, Hr. reflexivity.
Qed.

(** X8 at a negative amount. *)
Lemma Withdraw_data_layout_witness :
  exists word,
    length word = 32%nat
    /\ be_decode word = Z.abs (-1000000)
    /\ snd (bridge.Withdraw bridge.accepting_chain (repeat x0a 20)
              (repeat x11 20) (repeat x22 20) (-1000000)
              {| bridge.Priority := 0 |} [])
       = [] ++ [bridge.Transact "adminWithdraw" {| bridge.Priority := 0 |}
                  [bridge.Address (repeat x0a 20);
                   bridge.Bytes ((repeat x00 12 ++ repeat x11 20)
                                 ++ (repeat x00 12 ++ repeat x22 20)
                                 ++ word)]].
Proof.
  apply Withdraw_data_layout.
  - reflexivity.
  - reflexivity.
  - simpl. lia.
Defined.

(** X9. An amount of absolute value 2^256 or more is not cut to 32
    bytes: the data [Withdraw] sends is then longer than the 96 bytes of
    three words. *)
Theorem Withdraw_data_overflow
    (transact_reply :
       list bridge.Invocation -> string -> bridge.TransactOptions ->
       list bridge.ABIValue -> option (list byte) * option error)
    (handler token recipient : list byte) (amount : Z)
    (opts : bridge.TransactOptions) (log : list bridge.Invocation) :
  2 ^ 256 <= Z.abs amount ->
  exists data,
    snd (bridge.Withdraw transact_reply handler token recipient amount
           opts log)
    = log ++ [bridge.Transact "adminWithdraw" opts
                [bridge.Address handler; bridge.Bytes data]]
    /\ (96 < length data)%nat.
Proof.
  intros Ha. eexists. split.
  - unfold bridge.Withdraw, bridge.ExecuteTransaction. cbn [snd]. reflexivity.
  - rewrite !length_app, !LeftPadBytes_length.
    pose proof (big_Bytes_length_gt amount 32) as H.
    change (256 ^ Z.of_nat 32) with (2 ^ 256) in H. specialize (H Ha). lia.
Qed.

(** X9 at the amount 2^256. *)
Lemma Withdraw_data_overflow_witness :
  exists data,
    snd (bridge.Withdraw bridge.accepting_chain (repeat x0a 20)
           (repeat x11 20) (repeat x22 20) (2 ^ 256)
           {| bridge.Priority := 0 |} [])
    = [] ++ [bridge.Transact "adminWithdraw" {| bridge.Priority := 0 |}
               [bridge.Address (repeat x0a 20); bridge.Bytes data]]
    /\ (96 < length data)%nat.
Proof.
  apply Withdraw_data_overflow. simpl. lia.
Defined.

(** ** The static elector when a candidate joins *)

(** X10. When a peer joins the candidates of a session: if its key is
    below the key of the elected peer it is elected in its place, and if
    its key is above, the elected peer stays (no two of the old
    candidates sharing a key). *)
Theorem Coordinator_join (sid : string) (peers : list string)
    (leader newcomer : string) :
  peers <> [] ->
  elector.Coordinator (elector.NewCoordinatorElector sid) peers
  = Ret (leader, None) ->
  (elector.candidate_key sid newcomer < elector.candidate_key sid leader ->
   elector.Coordinator (elector.NewCoordinatorElector sid) (newcomer :: peers)
   = Ret (newcomer, None))
  /\ (elector.candidate_key sid leader < elector.candidate_key sid newcomer ->
      elector.collision_free sid peers ->
      elector.Coordinator (elector.NewCoordinatorElector sid)
        (newcomer :: peers)
      = Ret (leader, None)).
Proof.
  intros Hne Hc.
  destruct (Coordinator_least sid peers Hne) as (l0 & Hc0 & Hin & Hmin).
  rewrite Hc in Hc0. injection Hc0 as <-.
  assert (Hne' : newcomer :: peers <> []) by discriminate.
  destruct (Coordinator_least sid (newcomer :: peers) Hne')
    as (l1 & Hc1 & Hin1 & Hmin1).
  rewrite Hc1. rewrite Forall_forall in Hmin, Hmin1.
  pose proof (Hmin1 newcomer (list_elem_of_here _ _)) as Hnew.
  pose proof (Hmin1 leader (list_elem_of_further _ _ _ Hin)) as Hold.
  apply elem_of_cons in Hin1 as [->|Hin1].
  - split; [reflexivity|]. intros Hlt _. lia.
  - pose proof (Hmin l1 Hin1) as Hl1. split.
    + intros Hlt. lia.
    + intros Hlt Hfree. f_equal. f_equal.
      unfold elector.collision_free in Hfree.
      rewrite Forall_forall in Hfree. specialize (Hfree l1 Hin1).
      rewrite Forall_forall in Hfree. apply (Hfree leader Hin). lia.
Qed.

(** X10 at the three peers of the example above: "QmDave" has a key
    above the key of the leader "QmBob", who stays. *)
Lemma Coordinator_join_witness :
  elector.Coordinator (elector.NewCoordinatorElector "keygen-1")
    ["QmDave"; "QmAlice"; "QmBob"; "QmCarol"]%string
  = Ret ("QmBob"%string, None).
Proof.
  assert (Hne : ["QmAlice"; "QmBob"; "QmCarol"]%string <> []) by discriminate.
  refine (proj2 (Coordinator_join "keygen-1"
                   ["QmAlice"; "QmBob"; "QmCarol"]%string
                   "QmBob" "QmDave" Hne _) _ _).
  - vm_compute. reflexivity.
  - vm_compute. reflexivity.
  - apply (bool_decide_unpack (elector.collision_free _ _)).
    vm_compute. exact I.
Defined.

(** ** Startup, step by step *)

Lemma build_chains_Ret (env : app.Env)
    (configs : list (gmap string app.ConfigValue))
    (acc chains : list app.RelayedChain) :
  app.build_chains env configs acc = Ret chains
  <-> exists built,
        chains = acc ++ built /\ Forall2 (chain_built env) configs built.
Proof.
  split.
  - revert acc. induction configs as [|c rest IH]; intros acc;
      cbn [app.build_chains].
    + intros [= <-]. exists []. split; [by rewrite app_nil_r|constructor].
    + destruct (app.is_evm (c !! "type")) eqn:Et; [|discriminate].
      destruct (app.NewEVMConfig env c) as [config|e] eqn:Ec; cbn;
        [|discriminate].
      destruct (app.NewEVMClient env config) as [e|] eqn:El; cbn;
        [discriminate|].
      intros H. apply IH in H as (built & -> & Hb).
      exists ({| app.chain_config := config |} :: built). split.
      * rewrite <- app_assoc. reflexivity.
      * constructor; [|exact Hb].
        unfold chain_built. cbn [app.chain_config].
        apply is_evm_true in Et. auto.
  - intros (built & -> & Hb). revert acc.
    induction Hb as [|c ch rest built (Ht & Hc & Hl) _ IH]; intros acc;
      cbn [app.build_chains].
    + by rewrite app_nil_r.
    + rewrite (proj2 (is_evm_true _) Ht), Hc. cbn. rewrite Hl. cbn.
      rewrite IH, <- app_assoc. destruct ch. reflexivity.
Qed.

Lemma build_chains_Panics (env : app.Env)
    (configs : list (gmap string app.ConfigValue))
    (acc : list app.RelayedChain) (value : error) :
  app.build_chains env configs acc = Panics value ->
  exists c,
    c ∈ configs
    /\ (app.NewEVMConfig env c = inr value
        \/ (exists config,
              app.NewEVMConfig env c = inl config
              /\ app.NewEVMClient env config = Some value)
        \/ (c !! "type" <> Some (app.VString "evm")
            /\ value = app.Errorf_not_recognized (c !! "type"))).
Proof.
  revert acc. induction configs as [|c rest IH]; intros acc;
    cbn [app.build_chains]; [discriminate|].
  destruct (app.is_evm (c !! "type")) eqn:Et.
  - destruct (app.NewEVMConfig env c) as [config|e] eqn:Ec; cbn.
    + destruct (app.NewEVMClient env config) as [e|] eqn:El; cbn.
      * intros [= <-]. exists c. split; [apply list_elem_of_here|].
        right. left. exists config. auto.
      * intros H. apply IH in H as (c' & Hin & H).
        exists c'. split; [by apply list_elem_of_further|exact H].
    + intros [= <-]. exists c. split; [apply list_elem_of_here|].
      left. exact Ec.
  - intros [= <-]. exists c. split; [apply list_elem_of_here|].
    right. right. split; [|reflexivity].
    intros Ht. apply is_evm_true in Ht. congruence.
Qed.

(** X11. The relayer is started exactly when every step of the setup
    has succeeded: the configuration is loaded, the topology provider,
    the topology, the block store, the key file, the key and the p2p host
    are obtained without error, and every chain entry is of type ["evm"]
    with a configuration that parses and a client that connects. The
    chains handed to the relayer are then those of the entries, one for
    one and in their order; with no entries the relayer is started on
    no chain. *)
Theorem startup_succeeds_iff (env : app.Env)
    (chains : list app.RelayedChain) :
  app.startup env = Ret chains
  <-> exists cfg topology privBytes,
        app.GetConfig env (app.ConfigFlag env) = inl cfg
        /\ app.NewNetworkTopologyProvider env
             (app.TopologyConfiguration (app.RelayerMpcConfig cfg)) = None
        /\ app.GetNetworkTopology env = inl topology
        /\ app.NewLvlDB env (app.BlockstoreFlag env) = None
        /\ app.ReadFile env (app.KeystorePath (app.RelayerMpcConfig cfg))
           = inl privBytes
        /\ app.UnmarshalPrivateKey env privBytes = None
        /\ app.NewHost env (app.Peers topology)
             (app.Port (app.RelayerMpcConfig cfg)) = None
        /\ Forall2 (chain_built env) (app.ChainConfigs cfg) chains.
Proof.
  unfold app.startup, app.prelude. split.
  - destruct (app.GetConfig env (app.ConfigFlag env)) as [cfg|e] eqn:E1;
      cbn; [|discriminate].
    destruct (app.NewNetworkTopologyProvider env _) as [e|] eqn:E2;
      cbn; [discriminate|].
    destruct (app.GetNetworkTopology env) as [topology|e] eqn:E3;
      cbn; [|discriminate].
    destruct (app.NewLvlDB env _) as [e|] eqn:E4; cbn; [discriminate|].
    destruct (app.ReadFile env _) as [privBytes|e] eqn:E5;
      cbn; [|discriminate].
    destruct (app.UnmarshalPrivateKey env privBytes) as [e|] eqn:E6;
      cbn; [discriminate|].
    destruct (app.NewHost env _ _) as [e|] eqn:E7; cbn; [discriminate|].
    intros H. apply build_chains_Ret in H as (built & -> & Hb).
    exists cfg, topology, privBytes. auto 10.
  - intros (cfg & topology & privBytes & E1 & E2 & E3 & E4 & E5 & E6 & E7 & Hb).
    rewrite E1. cbn. rewrite E2. cbn. rewrite E3. cbn. rewrite E4. cbn.
    rewrite E5. cbn. rewrite E6. cbn. rewrite E7. cbn.
    apply build_chains_Ret. exists chains. auto.
Qed.

(** X11 with one [evm] chain and with no chain. *)
Lemma startup_succeeds_iff_witness :
  app.startup (app.sample_env [app.evm_chain])
  = Ret [{| app.chain_config :=
              {| app.Bridge := "0x01"; app.Erc20Handler := "0x02";
                 app.Erc721Handler := "0x03"; app.GenericHandler := "0x04" |} |}]
  /\ app.startup (app.sample_env []) = Ret [].
Proof.
  split.
  - apply startup_succeeds_iff.
    exists (app.sample_config [app.evm_chain]), {| app.Peers := [] |}, [].
    repeat (split; [reflexivity|]).
    constructor; [|constructor].
    unfold chain_built. repeat split; vm_compute; reflexivity.
  - apply startup_succeeds_iff.
    exists (app.sample_config []), {| app.Peers := [] |}, [].
    repeat (split; [reflexivity|]). constructor.
Defined.

(** X12. When the setup panics, the value of the panic is an error that
    one of the calls of the setup returned, or the "not recognized" error
    of a chain entry whose type is not ["evm"]; [Run] panics with no
    error of another origin. *)
Theorem startup_panic_origin (env : app.Env) (value : error) :
  app.startup env = Panics value ->
  app.GetConfig env (app.ConfigFlag env) = inr value
  \/ exists cfg,
       app.GetConfig env (app.ConfigFlag env) = inl cfg
       /\ (app.NewNetworkTopologyProvider env
             (app.TopologyConfiguration (app.RelayerMpcConfig cfg))
           = Some value
           \/ app.GetNetworkTopology env = inr value
           \/ app.NewLvlDB env (app.BlockstoreFlag env) = Some value
           \/ app.ReadFile env (app.KeystorePath (app.RelayerMpcConfig cfg))
              = inr value
           \/ (exists privBytes,
                 app.ReadFile env
                   (app.KeystorePath (app.RelayerMpcConfig cfg))
                 = inl privBytes
                 /\ app.UnmarshalPrivateKey env privBytes = Some value)
           \/ (exists topology,
                 app.GetNetworkTopology env = inl topology
                 /\ app.NewHost env (app.Peers topology)
                      (app.Port (app.RelayerMpcConfig cfg)) = Some value)
           \/ (exists c,
                 c ∈ app.ChainConfigs cfg
                 /\ (app.NewEVMConfig env c = inr value
                     \/ (exists config,
                           app.NewEVMConfig env c = inl config
                           /\ app.NewEVMClient env config = Some value)
                     \/ (c !! "type" <> Some (app.VString "evm")
                         /\ value
                            = app.Errorf_not_recognized (c !! "type"))))).
Proof.
  unfold app.startup, app.prelude.
  destruct (app.GetConfig env (app.ConfigFlag env)) as [cfg|e] eqn:E1; cbn;
    [|intros [= <-]; left; reflexivity].
  intros H. right. exists cfg. split; [reflexivity|]. revert H.
  destruct (app.NewNetworkTopologyProvider env _) as [e|] eqn:E2; cbn;
    [intros [= <-]; auto|].
  destruct (app.GetNetworkTopology env) as [topology|e] eqn:E3; cbn;
    [|intros [= <-]; auto].
  destruct (app.NewLvlDB env _) as [e|] eqn:E4; cbn;
    [intros [= <-]; auto|].
  destruct (app.ReadFile env _) as [privBytes|e] eqn:E5; cbn;
    [|intros [= <-]; auto 6].
  destruct (app.UnmarshalPrivateKey env privBytes) as [e|] eqn:E6; cbn.
  { intros [= <-]. do 4 right. left. exists privBytes. auto. }
  destruct (app.NewHost env _ _) as [e|] eqn:E7; cbn.
  { intros [= <-]. do 5 right. left. exists topology. auto. }
  intros H. do 6 right. exact (build_chains_Panics _ _ _ _ H).
Qed.

(** X12 at a configuration whose second chain is of type ["substrate"]. *)
Lemma startup_panic_origin_witness :
  exists c,
    c ∈ [app.evm_chain; app.substrate_chain]
    /\ c !! "type" <> Some (app.VString "evm")
    /\ "type 'substrate' not recognized"%string
       = app.Errorf_not_recognized (c !! "type").
Proof.
  pose proof (startup_panic_origin
                (app.sample_env [app.evm_chain; app.substrate_chain])
                "type 'substrate' not recognized"%string) as H.
  assert (Hs : app.startup (app.sample_env [app.evm_chain; app.substrate_chain])
               = Panics "type 'substrate' not recognized"%string)
    by (vm_compute; reflexivity).
  destruct (H Hs) as [H0 | (cfg & Hcfg & Hrest)]; [discriminate H0|].
  cbn in Hcfg. injection Hcfg as <-.
  destruct Hrest as [H1|[H1|[H1|[H1|[H1|[H1|H1]]]]]]; try discriminate H1.
  - destruct H1 as (b & _ & H1). discriminate H1.
  - destruct H1 as (t & _ & H1). discriminate H1.
  - destruct H1 as (c & Hin & [H1|[(config & _ & H1)|H1]]);
      try discriminate H1.
    exists c. split; [exact Hin|exact H1].
Defined.

(** ** The read before the execution *)

(** X15. For a deposit nonce below 2^63, [IsProposalExecuted] asks the
    contract about the source domain and the nonce that [ExecuteProposal]
    sends for the same proposal: the check and the execution name the
    same deposit. *)
Theorem read_and_execution_agree
    (transact_reply :
       list bridge.Invocation -> string -> bridge.TransactOptions ->
       list bridge.ABIValue -> option (list byte) * option error)
    (call_reply :
       list bridge.Invocation -> string -> list bridge.ABIValue ->
       list bridge.ABIValue * option error)
    (p : bridge.Proposal) (signature : list byte) (revertOnFail : bool)
    (opts : bridge.TransactOptions) (log : list bridge.Invocation) :
  0 <= bridge.DepositNonce p < 2 ^ 63 ->
  exists source nonce,
    snd (bridge.IsProposalExecuted call_reply p log)
    = log ++ [bridge.Query "isProposalExecuted"
                [bridge.Uint8 source; bridge.BigInt nonce]]
    /\ snd (bridge.ExecuteProposal transact_reply p signature revertOnFail
              opts log)
       = log ++ [bridge.Transact "executeProposal" opts
                   [bridge.Uint8 source; bridge.Uint64 nonce;
                    bridge.Bytes (bridge.Data p);
                    bridge.Bytes32 (bridge.ResourceId p);
                    bridge.Bytes signature]].
Proof.
  intros Hn. exists (bridge.Source p), (bridge.DepositNonce p). split.
  - apply IsProposalExecuted_small_nonce. exact Hn.
  - reflexivity.
Qed.

(** X15 at the nonce 42. *)
Lemma read_and_execution_agree_witness :
  let p := bridge.sample_proposal 42 in
  exists source nonce,
    snd (bridge.IsProposalExecuted
           (bridge.answering_chain ([bridge.Bool false], None)) p [])
    = [] ++ [bridge.Query "isProposalExecuted"
               [bridge.Uint8 source; bridge.BigInt nonce]]
    /\ snd (bridge.ExecuteProposal bridge.accepting_chain p [x01] true
              {| bridge.Priority := 0 |} [])
       = [] ++ [bridge.Transact "executeProposal" {| bridge.Priority := 0 |}
                  [bridge.Uint8 source; bridge.Uint64 nonce;
                   bridge.Bytes (bridge.Data p);
                   bridge.Bytes32 (bridge.ResourceId p);
                   bridge.Bytes [x01]]].
Proof.
  intros p. apply read_and_execution_agree. simpl. lia.
Defined.
